(** * The pod API client of [api/pod.go]

    A shallow embedding of the six pod operations ([GetPods], [CreatePod],
    [StopPod], [RemovePod], [StartOnDemandPod], [StartSpotPod]) together
    with the properties of their response handling.

    Each Go function is transcribed statement by statement.  The transport
    ([Query]) and the JSON decoder ([json.Unmarshal]) are collaborators that
    live outside [pod.go]; the operations take them as parameters. *)

From Stdlib Require Import ZArith String Ascii List DecimalString DecimalZ SpecFloat Lia.
From stdpp Require Import base option list gmap strings.
Import ListNotations.

Set Warnings "-register-all".
Open Scope string_scope.

(** ** Go values *)

(** [float32] and [float64] are carried around and never computed with. *)
Definition float32 : Type := spec_float.
Definition float64 : Type := spec_float.

(** What [encoding/json] stores in an [interface{}]: [nil] for [null],
    [bool], [float64], [string], [[]interface{}] and
    [map[string]interface{}]. *)
Inductive json : Type :=
| JNull
| JBool (b : bool)
| JNumber (f : float64)
| JString (s : string)
| JArray (l : list json)
| JObject (m : gmap string json).

(** The dynamic type of an interface value, as a failed type assertion
    prints it; [None] is the nil interface. *)
Definition dynamic_type (v : json) : option string :=
  match v with
  | JNull => None
  | JBool _ => Some "bool"
  | JNumber _ => Some "float64"
  | JString _ => Some "string"
  | JArray _ => Some "[]interface {}"
  | JObject _ => Some "map[string]interface {}"
  end.

(** [m[k]] on a Go map: the nil interface when the key is missing (and on a
    nil map, which reads like an empty one). *)
Definition map_index (m : gmap string json) (k : string) : json :=
  default JNull (m !! k).

(** [_, ok = m[k]]: is the key there. *)
Definition map_has (m : gmap string json) (k : string) : bool :=
  bool_decide (is_Some (m !! k)).

(** Comma-ok type assertions [v.(T)]: [Some] when [ok], [None] when not (the
    Go variable is then the zero value of [T], a nil slice or a nil map). *)
Definition as_slice (v : json) : option (list json) :=
  match v with JArray l => Some l | _ => None end.

Definition as_map (v : json) : option (gmap string json) :=
  match v with JObject m => Some m | _ => None end.

Definition as_string (v : json) : option string :=
  match v with JString s => Some s | _ => None end.

(** Go [error] values.  [errors.New] and [fmt.Errorf] without [%w] both
    give an [*errors.errorString]; every other error that reaches the caller
    was made by a collaborator. *)
Inductive error : Type :=
| errorString (s : string)
| foreignError (origin : string) (s : string).

Definition Error (e : error) : string :=
  match e with
  | errorString s => s
  | foreignError _ s => s
  end.

(** Run-time panics the operations can raise. *)
Inductive panic : Type :=
| nilDereference
| indexOutOfRange (i : nat) (len : nat)
| interfaceConversion (dynamic : option string) (asserted : string).

(** The [return] statement an operation left through, in source order. *)
Inductive exit : Type :=
| exitQueryErr
| exitStatusCode
| exitReadAll
| exitUnmarshal
| exitGraphQLErrors
| exitDataNil
| exitPayloadNil
| exitSuccess.

(** An operation either returns its two named results or panics. *)
Inductive outcome (A : Type) : Type :=
| Return (x : exit) (v : A) (err : option error)
| Panic (p : panic).
Arguments Return {A} x v err.
Arguments Panic {A} p.

(** ** Formatting and strings *)

(** The [%d] verb on an [int]. *)
Definition fmt_d (n : Z) : string := NilEmpty.string_of_int (Z.to_int n).

(** [strings.Split] for a non-empty separator, following [genSplit]: cut at
    the first occurrence of [sep] and continue behind it.  Every round
    drops at least one byte, so [length s] rounds are enough. *)
Fixpoint genSplit (rounds : nat) (s sep : string) : list string :=
  match rounds with
  | O => [s]
  | S rounds' =>
      match index 0 sep s with
      | None => [s]
      | Some m =>
          substring 0 m s
            :: genSplit rounds'
                 (substring (m + String.length sep)
                            (String.length s - (m + String.length sep)) s) sep
      end
  end.

(** With an empty separator Go explodes [s] into its UTF-8 sequences; the
    bytes below are those sequences for ASCII text.  [pod.go] only splits
    on [":"]. *)
Fixpoint explode (s : string) : list string :=
  match s with
  | EmptyString => []
  | String c s' => String c EmptyString :: explode s'
  end.

Definition strings_Split (s sep : string) : list string :=
  match sep with
  | EmptyString => explode s
  | _ => genSplit (String.length s) s sep
  end.

(** [strings.Contains]. *)
Definition strings_Contains (s substr : string) : bool :=
  match index 0 substr s with
  | Some _ => true
  | None => false
  end.

(** ** Data model *)

(** [type GraphQLError struct]. *)
Record GraphQLError : Type := { Message : string }.

(** [type Machine struct]. *)
Record Machine : Type := { GpuDisplayName : string }.

(** [type Pod struct]; [Env] is a slice of strings and [Machine] a pointer. *)
Module Pod.
Record t : Type := {
  Id : string;
  ContainerDiskInGb : Z;
  CostPerHr : float32;
  DesiredStatus : string;
  DockerArgs : string;
  Env : list string;
  GpuCount : Z;
  ImageName : string;
  MemoryInGb : Z;
  Name : string;
  PodType : string;
  Ports : string;
  VcpuCount : Z;
  VolumeInGb : Z;
  VolumeMountPath : string;
  Machine : option Machine
}.
End Pod.

(** [type MySelfData struct]: [Pods] is a slice of pointers, nil ([None])
    when the key is missing or [null]. *)
Record MySelfData : Type := { Pods : option (list (option Pod.t)) }.

(** [type PodData struct]. *)
Record PodData : Type := { Myself : option MySelfData }.

(** [type PodOut struct]: only the length and the first entry of [Errors]
    are read, so a nil slice is the empty list. *)
Record PodOut : Type := {
  Data : option PodData;
  Errors : list (option GraphQLError)
}.

(** [type PodEnv struct]. *)
Record PodEnv : Type := { Key : string; Value : string }.

(** [type CreatePodInput struct]. *)
Module CreatePodInput.
Record t : Type := {
  CloudType : string;
  ContainerDiskInGb : Z;
  DeployCost : float32;
  DockerArgs : string;
  Env : list (option PodEnv);
  GpuCount : Z;
  GpuTypeId : string;
  ImageName : string;
  MinMemoryInGb : Z;
  MinVcpuCount : Z;
  Name : string;
  Ports : string;
  TemplateId : string;
  VolumeInGb : Z;
  VolumeMountPath : string
}.

(** [podInput.Name = name]. *)
Definition set_Name (name : string) (p : t) : t :=
  {| CloudType := CloudType p;
     ContainerDiskInGb := ContainerDiskInGb p;
     DeployCost := DeployCost p;
     DockerArgs := DockerArgs p;
     Env := Env p;
     GpuCount := GpuCount p;
     GpuTypeId := GpuTypeId p;
     ImageName := ImageName p;
     MinMemoryInGb := MinMemoryInGb p;
     MinVcpuCount := MinVcpuCount p;
     Name := name;
     Ports := Ports p;
     TemplateId := TemplateId p;
     VolumeInGb := VolumeInGb p;
     VolumeMountPath := VolumeMountPath p |}.
End CreatePodInput.

(** ** The transport port

    [Input], [Query] and the response are declared elsewhere in the
    package; [pod.go] uses the members below. *)

(** A value bound to a GraphQL variable.  [CreatePod] binds its pointer
    argument; the transport encodes the struct as it stands at the call. *)
Inductive variable : Type :=
| VString (s : string)
| VFloat32 (f : float32)
| VCreatePodInput (p : CreatePodInput.t).

(** [Input{Query: ..., Variables: ...}]; a missing [Variables] is the nil
    map. *)
Record Input : Type := {
  Input_Query : string;
  Variables : gmap string variable
}.

(** [res.Body]: what [io.ReadAll] gets out of it, the bytes read and the
    error that stopped the read, if any.  The deferred [res.Body.Close()]
    has no part in what the operations return and is left out. *)
Record ReadCloser : Type := {
  contents : string;
  read_err : option error
}.

Definition io_ReadAll (r : ReadCloser) : string * option error :=
  (contents r, read_err r).

(** A body that reads to its end. *)
Definition readable (raw : string) : ReadCloser :=
  {| contents := raw; read_err := None |}.

(** [res.StatusCode] and [res.Body]. *)
Record Response : Type := {
  StatusCode : Z;
  Body : ReadCloser
}.

(** ** Requests *)

Definition GetPods_input : Input :=
  {| Input_Query := "
		query myPods {
			myself {
			  pods {
				id
				containerDiskInGb
				costPerHr
				desiredStatus
				dockerArgs
				dockerId
				env
				gpuCount
				imageName
				lastStatusChange
				machineId
				memoryInGb
				name
				podType
				port
				ports
				uptimeSeconds
				vcpuCount
				volumeInGb
				volumeMountPath
				machine {
				  gpuDisplayName
				}
			  }
			}
		  }
		";
     Variables := ∅ |}.

Definition CreatePod_input (podInput : CreatePodInput.t) : Input :=
  {| Input_Query := "
		mutation createPod($input: PodFindAndDeployOnDemandInput!) {
			podFindAndDeployOnDemand(input: $input) {
			  id
			  costPerHr
			  desiredStatus
			  lastStatusChange
			}
		}
		";
     Variables := {[ "input" := VCreatePodInput podInput ]} |}.

Definition StopPod_input (id : string) : Input :=
  {| Input_Query := "
		mutation stopPod($podId: String!) {
		  podStop(input: {podId:  $podId}) {
			id
			desiredStatus
			lastStatusChange
		  }
		}
		";
     Variables := {[ "podId" := VString id ]} |}.

Definition RemovePod_input (id : string) : Input :=
  {| Input_Query := "
		mutation terminatePod($podId: String!) {
		  podTerminate(input: {podId:  $podId})
		}
		";
     Variables := {[ "podId" := VString id ]} |}.

Definition StartOnDemandPod_input (id : string) : Input :=
  {| Input_Query := "
		mutation podResume($podId: String!) {
		  podResume(input: {podId: $podId}) {
			id
			costPerHr
			desiredStatus
			lastStatusChange
		  }
		}
		";
     Variables := {[ "podId" := VString id ]} |}.

Definition StartSpotPod_input (id : string) (bidPerGpu : float32) : Input :=
  {| Input_Query := "
		mutation Mutation($podId: String!, $bidPerGpu: Float!) {
			podBidResume(input: {podId: $podId, bidPerGpu: $bidPerGpu}) {
			  id
			  costPerHr
			  desiredStatus
			  lastStatusChange
			}
		}
		";
     Variables := <[ "podId" := VString id ]> {[ "bidPerGpu" := VFloat32 bidPerGpu ]} |}.

(** ** The six operations *)

Section Operations.

(** [Query(input)]: the response, or the transport's error. *)
Variable Query : Input -> Response + error.

(** [json.Unmarshal(rawData, data)] at the two targets [pod.go] decodes
    into: a [*PodOut] and a [*map[string]interface{}] (a [null] body
    leaves the map empty). *)
Variable Unmarshal_PodOut : string -> PodOut + error.
Variable Unmarshal_map : string -> gmap string json + error.

(** The error branch shared by the five mutations:
    [firstErr, _ := gqlErrors[0].(map[string]interface{})] followed by
    [errors.New(firstErr["message"].(string))], whose assertion is not
    guarded. *)
Definition first_error_message (first : json) : string + panic :=
  let firstErr := default ∅ (as_map first) in
  match as_string (map_index firstErr "message") with
  | Some s => inl s
  | None =>
      inr (interfaceConversion
             (dynamic_type (map_index firstErr "message")) "string")
  end.

Definition GetPods : outcome (option (list (option Pod.t))) :=
  let input := GetPods_input in
  match Query input with
  | inr err => Return exitQueryErr None (Some err)
  | inl res =>
    if negb (StatusCode res =? 200)%Z then
      Return exitStatusCode None
        (Some (errorString ("statuscode " +:+ fmt_d (StatusCode res))))
    else
      match io_ReadAll (Body res) with
      | (_, Some err) => Return exitReadAll None (Some err)
      | (rawData, None) =>
        match Unmarshal_PodOut rawData with
        | inr err => Return exitUnmarshal None (Some err)
        | inl data =>
          match Errors data with
          | first :: _ =>
              match first with
              | None => Panic nilDereference
              | Some e =>
                  Return exitGraphQLErrors None (Some (errorString (Message e)))
              end
          | [] =>
              let data_is_nil :=
                Return exitDataNil None
                  (Some (errorString ("data is nil: " +:+ rawData))) in
              match Data data with
              | None => data_is_nil
              | Some d =>
                match Myself d with
                | None => data_is_nil
                | Some myself =>
                  match Pods myself with
                  | None => data_is_nil
                  | Some pods => Return exitSuccess (Some pods) None
                  end
                end
              end
          end
        end
      end
  end.

(** [podInput] is the caller's pointer, [None] when nil.  The first
    component of the result is the struct behind it when the call ends. *)
Definition CreatePod (podInput : option CreatePodInput.t)
  : option CreatePodInput.t * outcome (option (gmap string json)) :=
  match podInput with
  | None => (None, Panic nilDereference)
  | Some p0 =>
    let named :=
      if String.eqb (CreatePodInput.Name p0) "" then
        let names := strings_Split (CreatePodInput.ImageName p0) ":" in
        match names with
        | name :: _ => inl (CreatePodInput.set_Name name p0)
        | [] => inr (indexOutOfRange 0 0)
        end
      else inl p0 in
    match named with
    | inr p => (Some p0, Panic p)
    | inl p =>
      (Some p,
       let input := CreatePod_input p in
       match Query input with
       | inr err => Return exitQueryErr None (Some err)
       | inl res =>
         match io_ReadAll (Body res) with
         | (_, Some err) => Return exitReadAll None (Some err)
         | (rawData, None) =>
           if negb (StatusCode res =? 200)%Z then
             Return exitStatusCode None
               (Some (errorString ("statuscode " +:+ fmt_d (StatusCode res)
                                     +:+ ": " +:+ rawData)))
           else
             match Unmarshal_map rawData with
             | inr err => Return exitUnmarshal None (Some err)
             | inl data =>
               match as_slice (map_index data "errors") with
               | Some (first :: _) =>
                   match first_error_message first with
                   | inl msg =>
                       Return exitGraphQLErrors None (Some (errorString msg))
                   | inr p => Panic p
                   end
               | _ =>
                 match as_map (map_index data "data") with
                 | None =>
                     Return exitDataNil None
                       (Some (errorString ("data is nil: " +:+ rawData)))
                 | Some gqldata =>
                   match as_map (map_index gqldata "podFindAndDeployOnDemand") with
                   | None =>
                       Return exitPayloadNil None
                         (Some (errorString ("pod is nil: " +:+ rawData)))
                   | Some pod => Return exitSuccess (Some pod) None
                   end
                 end
               end
             end
         end
       end)
    end
  end.

Definition StopPod (id : string) : outcome (option (gmap string json)) :=
  let input := StopPod_input id in
  match Query input with
  | inr err => Return exitQueryErr None (Some err)
  | inl res =>
    if negb (StatusCode res =? 200)%Z then
      Return exitStatusCode None
        (Some (errorString ("statuscode " +:+ fmt_d (StatusCode res))))
    else
      match io_ReadAll (Body res) with
      | (_, Some err) => Return exitReadAll None (Some err)
      | (rawData, None) =>
        match Unmarshal_map rawData with
        | inr err => Return exitUnmarshal None (Some err)
        | inl data =>
          match as_slice (map_index data "errors") with
          | Some (first :: _) =>
              match first_error_message first with
              | inl msg =>
                  Return exitGraphQLErrors None (Some (errorString msg))
              | inr p => Panic p
              end
          | _ =>
            match as_map (map_index data "data") with
            | None =>
                Return exitDataNil None
                  (Some (errorString ("data is nil: " +:+ rawData)))
            | Some gqldata =>
              match as_map (map_index gqldata "podStop") with
              | None =>
                  Return exitPayloadNil None
                    (Some (errorString ("podStop is nil: " +:+ rawData)))
              | Some podStop => Return exitSuccess (Some podStop) None
              end
            end
          end
        end
      end
  end.

(** The named result [ok] is also the comma-ok flag of both type
    assertions, so it is [true] on the GraphQL-errors return. *)
Definition RemovePod (id : string) : outcome bool :=
  let input := RemovePod_input id in
  match Query input with
  | inr err => Return exitQueryErr false (Some err)
  | inl res =>
    if negb (StatusCode res =? 200)%Z then
      Return exitStatusCode false
        (Some (errorString ("statuscode " +:+ fmt_d (StatusCode res))))
    else
      match io_ReadAll (Body res) with
      | (_, Some err) => Return exitReadAll false (Some err)
      | (rawData, None) =>
        match Unmarshal_map rawData with
        | inr err => Return exitUnmarshal false (Some err)
        | inl data =>
          match as_slice (map_index data "errors") with
          | Some (first :: _) =>
              match first_error_message first with
              | inl msg =>
                  Return exitGraphQLErrors true (Some (errorString msg))
              | inr p => Panic p
              end
          | _ =>
            match as_map (map_index data "data") with
            | None =>
                Return exitDataNil false
                  (Some (errorString ("data is nil: " +:+ rawData)))
            | Some gqldata =>
                let ok := map_has gqldata "podTerminate" in
                Return exitSuccess ok None
            end
          end
        end
      end
  end.

Definition StartOnDemandPod (id : string) : outcome (option (gmap string json)) :=
  let input := StartOnDemandPod_input id in
  match Query input with
  | inr err => Return exitQueryErr None (Some err)
  | inl res =>
    if negb (StatusCode res =? 200)%Z then
      Return exitStatusCode None
        (Some (errorString ("PodBidResume: statuscode " +:+ fmt_d (StatusCode res))))
    else
      match io_ReadAll (Body res) with
      | (_, Some err) => Return exitReadAll None (Some err)
      | (rawData, None) =>
        match Unmarshal_map rawData with
        | inr err => Return exitUnmarshal None (Some err)
        | inl data =>
          match as_slice (map_index data "errors") with
          | Some (first :: _) =>
              match first_error_message first with
              | inl msg =>
                  Return exitGraphQLErrors None (Some (errorString msg))
              | inr p => Panic p
              end
          | _ =>
            match as_map (map_index data "data") with
            | None =>
                Return exitDataNil None
                  (Some (errorString ("data is nil: " +:+ rawData)))
            | Some gqldata =>
              match as_map (map_index gqldata "podResume") with
              | None =>
                  Return exitPayloadNil None
                    (Some (errorString ("pod is nil: " +:+ rawData)))
              | Some pod => Return exitSuccess (Some pod) None
              end
            end
          end
        end
      end
  end.

Definition StartSpotPod (id : string) (bidPerGpu : float32)
  : outcome (option (gmap string json)) :=
  let input := StartSpotPod_input id bidPerGpu in
  match Query input with
  | inr err => Return exitQueryErr None (Some err)
  | inl res =>
    if negb (StatusCode res =? 200)%Z then
      Return exitStatusCode None
        (Some (errorString ("PodBidResume: statuscode " +:+ fmt_d (StatusCode res))))
    else
      match io_ReadAll (Body res) with
      | (_, Some err) => Return exitReadAll None (Some err)
      | (rawData, None) =>
        match Unmarshal_map rawData with
        | inr err => Return exitUnmarshal None (Some err)
        | inl data =>
          match as_slice (map_index data "errors") with
          | Some (first :: _) =>
              match first_error_message first with
              | inl msg =>
                  Return exitGraphQLErrors None (Some (errorString msg))
              | inr p => Panic p
              end
          | _ =>
            match as_map (map_index data "data") with
            | None =>
                Return exitDataNil None
                  (Some (errorString ("data is nil: " +:+ rawData)))
            | Some gqldata =>
              match as_map (map_index gqldata "podBidResume") with
              | None =>
                  Return exitPayloadNil None
                    (Some (errorString ("podBidResume is nil: " +:+ rawData)))
              | Some podBidResume => Return exitSuccess (Some podBidResume) None
              end
            end
          end
        end
      end
  end.

End Operations.

(** ** The name rule in the specification's words

    "If no explicit name is supplied, a name is derived by taking the image
    reference up to its first [:] separator."  [CreatePod] itself goes
    through [strings_Split]; the two are compared below. *)
Fixpoint up_to_colon (image : string) : string :=
  match image with
  | EmptyString => EmptyString
  | String c rest =>
      if Ascii.eqb c ":" then EmptyString else String c (up_to_colon rest)
  end.

(** [CreatePod] consults the transport at [input] and nowhere else: it
    behaves as if every request were [input], and a transport failure at
    [input] is what it returns. *)
Definition CreatePod_asks (Unmarshal_map : string -> gmap string json + error)
    (p : CreatePodInput.t) (input : Input) : Prop :=
  forall Query : Input -> Response + error,
    CreatePod Query Unmarshal_map (Some p)
      = CreatePod (fun _ => Query input) Unmarshal_map (Some p)
    /\ forall e, Query input = inr e ->
         (CreatePod Query Unmarshal_map (Some p)).2
           = Return exitQueryErr None (Some e).

(** [CreatePod] sends [sent] as its [input] variable: the one request it
    makes binds [input] to that struct. *)
Definition CreatePod_sends (Unmarshal_map : string -> gmap string json + error)
    (p sent : CreatePodInput.t) : Prop :=
  exists input,
    Variables input !! "input" = Some (VCreatePodInput sent)
    /\ CreatePod_asks Unmarshal_map p input.

(** The guard [ok && len(gqlErrors) > 0] of the mutations. *)
Definition has_errors (data : gmap string json) : bool :=
  match as_slice (map_index data "errors") with
  | Some (_ :: _) => true
  | _ => false
  end.

(** ** Test doubles and sample responses *)

Module Samples.

(** Writes a JSON text with ['] where the wire has the double quote. *)
Fixpoint wire (s : string) : string :=
  match s with
  | EmptyString => EmptyString
  | String c rest =>
      String (if Ascii.eqb c "'" then ascii_of_nat 34 else c) (wire rest)
  end.

(** A transport that answers every request with one response. *)
Definition respond (code : Z) (body : ReadCloser) : Input -> Response + error :=
  fun _ => inl {| StatusCode := code; Body := body |}.

(** A transport that fails and reports the name it was asked to create. *)
Definition echo_name : Input -> Response + error :=
  fun input =>
    match Variables input !! "input" with
    | Some (VCreatePodInput p) => inr (foreignError "echo" (CreatePodInput.Name p))
    | _ => inr (foreignError "echo" "no input variable")
    end.

(** A decoder that knows the listed bodies and rejects every other text. *)
Definition decode_table {A : Type} (table : list (string * A)) (raw : string)
  : A + error :=
  match List.find (fun entry => String.eqb entry.1 raw) table with
  | Some entry => inl entry.2
  | None => inr (foreignError "json" "invalid character")
  end.

Definition unexpectedEOF : error := foreignError "io" "unexpected EOF".

(** A body whose read breaks off. *)
Definition broken_body : ReadCloser :=
  {| contents := ""; read_err := Some unexpectedEOF |}.

Definition five : float64 := S754_finite false 5 0.

Definition body_two_errors : string :=
  wire "{'errors': [{'message': 'A'}, {'message': 'B'}], 'data': null}".
Definition body_terminated : string := wire "{'data': {'podTerminate': null}}".
Definition body_no_key : string := wire "{'data': {}}".
Definition body_stop_scalar : string := wire "{'data': {'podStop': 5}}".
Definition body_create_list : string :=
  wire "{'data': {'podFindAndDeployOnDemand': []}}".
Definition body_resume_string : string := wire "{'data': {'podResume': 'up'}}".
Definition body_bid_bool : string := wire "{'data': {'podBidResume': true}}".
Definition body_null_error : string := wire "{'errors': [null]}".
Definition body_string_error : string := wire "{'errors': ['boom']}".
Definition body_number_message : string := wire "{'errors': [{'message': 5}]}".
Definition body_two_pods : string :=
  wire "{'data': {'myself': {'pods': [{'id': 'p1', 'gpuCount': 2, 'machine': {'gpuDisplayName': 'A100'}}, {'id': 'p2', 'name': 'idle'}]}}}".

Definition message (s : string) : json := JObject {[ "message" := JString s ]}.

(** What [json.Unmarshal] leaves in a [map[string]interface{}] for each
    sample body. *)
Definition Unmarshal_map : string -> gmap string json + error :=
  decode_table
    [ (body_two_errors,
        <[ "errors" := JArray [message "A"; message "B"] ]> {[ "data" := JNull ]});
      (body_terminated, {[ "data" := JObject {[ "podTerminate" := JNull ]} ]});
      (body_no_key, {[ "data" := JObject ∅ ]});
      (body_stop_scalar, {[ "data" := JObject {[ "podStop" := JNumber five ]} ]});
      (body_create_list,
        {[ "data" := JObject {[ "podFindAndDeployOnDemand" := JArray [] ]} ]});
      (body_resume_string, {[ "data" := JObject {[ "podResume" := JString "up" ]} ]});
      (body_bid_bool, {[ "data" := JObject {[ "podBidResume" := JBool true ]} ]});
      (body_null_error, {[ "errors" := JArray [JNull] ]});
      (body_string_error, {[ "errors" := JArray [JString "boom"] ]});
      (body_number_message,
        {[ "errors" := JArray [JObject {[ "message" := JNumber five ]}] ]}) ].

Definition zero : float32 := S754_zero false.

Definition pod1 : Pod.t :=
  {| Pod.Id := "p1"; Pod.ContainerDiskInGb := 0; Pod.CostPerHr := zero;
     Pod.DesiredStatus := ""; Pod.DockerArgs := ""; Pod.Env := [];
     Pod.GpuCount := 2; Pod.ImageName := ""; Pod.MemoryInGb := 0;
     Pod.Name := ""; Pod.PodType := ""; Pod.Ports := ""; Pod.VcpuCount := 0;
     Pod.VolumeInGb := 0; Pod.VolumeMountPath := "";
     Pod.Machine := Some {| GpuDisplayName := "A100" |} |}.

Definition pod2 : Pod.t :=
  {| Pod.Id := "p2"; Pod.ContainerDiskInGb := 0; Pod.CostPerHr := zero;
     Pod.DesiredStatus := ""; Pod.DockerArgs := ""; Pod.Env := [];
     Pod.GpuCount := 0; Pod.ImageName := ""; Pod.MemoryInGb := 0;
     Pod.Name := "idle"; Pod.PodType := ""; Pod.Ports := ""; Pod.VcpuCount := 0;
     Pod.VolumeInGb := 0; Pod.VolumeMountPath := ""; Pod.Machine := None |}.

(** What [json.Unmarshal] leaves in a [PodOut] for the sample bodies. *)
Definition Unmarshal_PodOut : string -> PodOut + error :=
  decode_table
    [ (body_two_errors,
        {| Data := None;
           Errors := [Some {| Message := "A" |}; Some {| Message := "B" |}] |});
      (body_two_pods,
        {| Data := Some {| Myself := Some {| Pods := Some [Some pod1; Some pod2] |} |};
           Errors := [] |}) ].

(** A pod request that names no pod and one that does. *)
Definition unnamed (image : string) : CreatePodInput.t :=
  {| CreatePodInput.CloudType := "SECURE";
     CreatePodInput.ContainerDiskInGb := 20;
     CreatePodInput.DeployCost := zero;
     CreatePodInput.DockerArgs := "";
     CreatePodInput.Env := [Some {| Key := "MODE"; Value := "fast" |}];
     CreatePodInput.GpuCount := 1;
     CreatePodInput.GpuTypeId := "NVIDIA A100";
     CreatePodInput.ImageName := image;
     CreatePodInput.MinMemoryInGb := 20;
     CreatePodInput.MinVcpuCount := 1;
     CreatePodInput.Name := "";
     CreatePodInput.Ports := "8888/http";
     CreatePodInput.TemplateId := "";
     CreatePodInput.VolumeInGb := 1;
     CreatePodInput.VolumeMountPath := "/runpod" |}.

Definition named (name image : string) : CreatePodInput.t :=
  CreatePodInput.set_Name name (unnamed image).

End Samples.

(** ** Decoding into the typed envelope

    [GetPods] hands the body to [json.Unmarshal] with a [*PodOut] as its
    target.  [encoding/json] checks the text and then stores the document
    into the struct, member by member, led by the fields of the struct.
    The reading of the text stays a parameter; the storing is written out
    here for the types of [pod.go]. *)

(** A JSON document as the decoder walks it: numbers by their literal,
    the members of an object in the order of the text. *)
Inductive jdoc : Type :=
| DNull
| DBool (b : bool)
| DNumber (literal : string)
| DString (s : string)
| DArray (items : list jdoc)
| DObject (members : list (string * jdoc)).

(** What storing a value gives: the value stored; an
    [*json.UnmarshalTypeError], kept by its [Value] and its [Type]; or
    nothing said, for the documents that are not followed here: an object
    that names one field of the struct twice (Go then stores into what the
    first member left, reusing the storage of slices), and a number whose
    literal is outside the JSON grammar (no text gives one). *)
Inductive stored (A : Type) : Type :=
| Stored (a : A)
| Mismatch (value type_ : string)
| Unmodelled.
Arguments Stored {A} a.
Arguments Mismatch {A} value type_.
Arguments Unmodelled {A}.

Definition stored_bind {A B : Type} (x : stored A) (k : A -> stored B) : stored B :=
  match x with
  | Stored a => k a
  | Mismatch value type_ => Mismatch value type_
  | Unmodelled => Unmodelled
  end.

(** The [Value] of an [UnmarshalTypeError]. *)
Definition Value_of (v : jdoc) : string :=
  match v with
  | DNull => "null"
  | DBool _ => "bool"
  | DNumber _ => "number"
  | DString _ => "string"
  | DArray _ => "array"
  | DObject _ => "object"
  end.

(** *** Number literals *)

Definition is_digit (c : ascii) : bool :=
  (48 <=? nat_of_ascii c)%nat && (nat_of_ascii c <=? 57)%nat.

(** The digits a text starts with, and what follows them. *)
Fixpoint span_digits (s : string) : string * string :=
  match s with
  | EmptyString => (EmptyString, EmptyString)
  | String c rest =>
      if is_digit c
      then let (digits, behind) := span_digits rest in (String c digits, behind)
      else (EmptyString, s)
  end.

(** The number a string of digits writes. *)
Fixpoint digits_value (acc : N) (digits : string) : N :=
  match digits with
  | EmptyString => acc
  | String c rest =>
      digits_value (acc * 10 + N.of_nat (nat_of_ascii c - 48))%N rest
  end.

(** A number literal taken apart along the JSON grammar:
    [-? int frac? exp?]. *)
Record number : Type := {
  negative : bool;
  integer : string;
  fraction : option string;
  exponent : option Z
}.

(** [frac = "." 1*DIGIT]. *)
Definition parse_fraction (s : string) : option (option string * string) :=
  match s with
  | String "." rest =>
      let (digits, behind) := span_digits rest in
      match digits with
      | EmptyString => None
      | _ => Some (Some digits, behind)
      end
  | _ => Some (None, s)
  end.

(** [exp = ("e" / "E") ["-" / "+"] 1*DIGIT], up to the end of the literal. *)
Definition parse_exponent (s : string) : option (option Z) :=
  match s with
  | EmptyString => Some None
  | String c rest =>
      if Ascii.eqb c "e" || Ascii.eqb c "E" then
        let (sign, rest') :=
          match rest with
          | String "-" r => (true, r)
          | String "+" r => (false, r)
          | _ => (false, rest)
          end in
        let (digits, behind) := span_digits rest' in
        match digits, behind with
        | String _ _, EmptyString =>
            let n := Z.of_N (digits_value 0 digits) in
            Some (Some (if sign then (- n)%Z else n))
        | _, _ => None
        end
      else None
  end.

(** [int = "0" / (digit1-9 *DIGIT)]. *)
Definition is_int_part (digits : string) : bool :=
  match digits with
  | EmptyString => false
  | String "0" (String _ _) => false
  | _ => true
  end.

Definition parse_number (literal : string) : option number :=
  let (neg, s) :=
    match literal with
    | String "-" rest => (true, rest)
    | _ => (false, literal)
    end in
  let (int_part, s) := span_digits s in
  if is_int_part int_part then
    match parse_fraction s with
    | Some (frac, s) =>
        match parse_exponent s with
        | Some exp =>
            Some {| negative := neg; integer := int_part;
                    fraction := frac; exponent := exp |}
        | None => None
        end
    | None => None
    end
  else None.

(** [strconv.ParseInt(literal, 10, 64)] on a JSON number: the literal has
    to be an integer that fits 64 bits. *)
Definition ParseInt (n : number) : option Z :=
  match fraction n, exponent n with
  | None, None =>
      let magnitude := Z.of_N (digits_value 0 (integer n)) in
      let value := if negative n then (- magnitude)%Z else magnitude in
      if ((- 2 ^ 63 <=? value) && (value <? 2 ^ 63))%Z then Some value else None
  | _, _ => None
  end.

(** The value of a literal as [mantissa * 10 ^ exponent10]. *)
Definition mantissa (n : number) : N :=
  digits_value 0 (integer n +:+ default "" (fraction n)).

Definition exponent10 (n : number) : Z :=
  (default 0 (exponent n) - Z.of_nat (String.length (default "" (fraction n))))%Z.

(** [strconv.ParseFloat(literal, 32)] on a JSON number: the binary32
    number nearest to the value of the literal, ties to even; a literal
    too large for binary32 is an error, one too small becomes a zero. *)
Definition ParseFloat32 (n : number) : option float32 :=
  match mantissa n with
  | N0 => Some (S754_zero (negative n))
  | Npos m =>
      let ratio p q :=
        SFdiv 24 128 (S754_finite (negative n) p 0) (S754_finite false q 0) in
      let nearest :=
        match exponent10 n with
        | Z0 => ratio m 1%positive
        | Zpos k => ratio (m * 10 ^ k)%positive 1%positive
        | Zneg k => ratio m (10 ^ k)%positive
        end in
      match nearest with
      | S754_finite _ _ _ | S754_zero _ => Some nearest
      | _ => None
      end
  end.

(** *** Names of fields *)

(** Go matches the name of a member to the name of a field with the case
    of letters folded; the long s (U+017F) and the Kelvin sign (U+212A)
    fold to [s] and [k]. *)
Definition upper (c : ascii) : ascii :=
  let n := nat_of_ascii c in
  if ((97 <=? n) && (n <=? 122))%nat then ascii_of_nat (n - 32) else c.

Fixpoint foldName (s : string) : string :=
  match s with
  | EmptyString => EmptyString
  | String c rest =>
      match nat_of_ascii c, rest with
      | 197, String c1 rest1 =>
          if (nat_of_ascii c1 =? 191)%nat then String "S" (foldName rest1)
          else String c (foldName rest)
      | 226, String c1 (String c2 rest2) =>
          if ((nat_of_ascii c1 =? 132) && (nat_of_ascii c2 =? 170))%nat
          then String "K" (foldName rest2)
          else String c (foldName rest)
      | _, _ => String (upper c) (foldName rest)
      end
  end.

(** *** Structs *)

(** A field of a struct as the decoder sees it: the name members are
    matched against (the [json] tag, or the name of the field) and the way
    a value is stored into the struct. *)
Record field (T : Type) : Type := {
  field_name : string;
  field_store : jdoc -> T -> stored T
}.
Arguments field_name {T} f.
Arguments field_store {T} f v t.

(** A field read with [get] and written with [set], whose values are
    decoded by [decode] from the document and from what the field holds. *)
Definition lens_field {T A : Type} (name : string)
    (get : T -> A) (set : A -> T -> T) (decode : jdoc -> A -> stored A) : field T :=
  {| field_name := name;
     field_store := fun v t => stored_bind (decode v (get t)) (fun a => Stored (set a t)) |}.

(** The field a member name stands for: the one with exactly that name,
    or else the first whose name folds to the same text. *)
Definition find_field {T : Type} (fields : list (field T)) (key : string)
  : option (field T) :=
  match List.find (fun f => String.eqb (field_name f) key) fields with
  | Some f => Some f
  | None =>
      List.find (fun f => String.eqb (foldName (field_name f)) (foldName key)) fields
  end.

(** The fields the members of an object name, in the order of the
    members. *)
Definition named_fields {T : Type} (fields : list (field T))
    (members : list (string * jdoc)) : list string :=
  omap (fun member => field_name <$> find_field fields member.1) members.

Definition unrepeated {T : Type} (fields : list (field T))
    (members : list (string * jdoc)) : bool :=
  bool_decide (NoDup (named_fields fields members)).

(** Stores the members one after the other; a member that names no field
    is skipped, the first mismatch ends the run. *)
Fixpoint store_each {T : Type} (fields : list (field T))
    (members : list (string * jdoc)) (t : T) : stored T :=
  match members with
  | [] => Stored t
  | (key, v) :: rest =>
      match find_field fields key with
      | None => store_each fields rest t
      | Some f => stored_bind (field_store f v t) (store_each fields rest)
      end
  end.

Definition store_members {T : Type} (fields : list (field T))
    (members : list (string * jdoc)) (t : T) : stored T :=
  if unrepeated fields members then store_each fields members t else Unmodelled.

(** *** Values *)

(** [null] leaves a string or a number as it is. *)
Definition decode_string (v : jdoc) (old : string) : stored string :=
  match v with
  | DNull => Stored old
  | DString s => Stored s
  | _ => Mismatch (Value_of v) "string"
  end.

Definition decode_int (v : jdoc) (old : Z) : stored Z :=
  match v with
  | DNull => Stored old
  | DNumber literal =>
      match parse_number literal with
      | None => Unmodelled
      | Some n =>
          match ParseInt n with
          | Some i => Stored i
          | None => Mismatch ("number " +:+ literal) "int"
          end
      end
  | _ => Mismatch (Value_of v) "int"
  end.

Definition decode_float32 (v : jdoc) (old : float32) : stored float32 :=
  match v with
  | DNull => Stored old
  | DNumber literal =>
      match parse_number literal with
      | None => Unmodelled
      | Some n =>
          match ParseFloat32 n with
          | Some f => Stored f
          | None => Mismatch ("number " +:+ literal) "float32"
          end
      end
  | _ => Mismatch (Value_of v) "float32"
  end.

(** The elements of an array, each stored into a fresh element. *)
Fixpoint decode_items {A : Type} (element : jdoc -> stored A) (items : list jdoc)
  : stored (list A) :=
  match items with
  | [] => Stored []
  | item :: rest =>
      stored_bind (element item) (fun a =>
      stored_bind (decode_items element rest) (fun l => Stored (a :: l)))
  end.

(** A pointer to a struct: [null] makes it nil, an object is stored into
    the struct it points to, a new one when it is nil. *)
Definition decode_pointer {T : Type} (fields : list (field T)) (zero : T)
    (type_ : string) (v : jdoc) (old : option T) : stored (option T) :=
  match v with
  | DNull => Stored None
  | DObject members =>
      stored_bind (store_members fields members (default zero old))
                  (fun t => Stored (Some t))
  | _ => Mismatch (Value_of v) type_
  end.

(** A [[]string].  No field is stored twice ([store_members]), so the
    slice is nil when a value comes for it. *)
Definition decode_strings (v : jdoc) (old : list string) : stored (list string) :=
  match v with
  | DNull => Stored []
  | DArray items => decode_items (fun item => decode_string item "") items
  | _ => Mismatch (Value_of v) "[]string"
  end.

(** *** The types of [pod.go] *)

Definition Machine_zero : Machine := {| GpuDisplayName := "" |}.

Definition Machine_fields : list (field Machine) :=
  [ lens_field "GpuDisplayName" GpuDisplayName
      (fun x _ => {| GpuDisplayName := x |}) decode_string ].

Definition decode_Machine : jdoc -> option Machine -> stored (option Machine) :=
  decode_pointer Machine_fields Machine_zero "api.Machine".

Definition Pod_zero : Pod.t :=
  {| Pod.Id := ""; Pod.ContainerDiskInGb := 0; Pod.CostPerHr := S754_zero false;
     Pod.DesiredStatus := ""; Pod.DockerArgs := ""; Pod.Env := [];
     Pod.GpuCount := 0; Pod.ImageName := ""; Pod.MemoryInGb := 0;
     Pod.Name := ""; Pod.PodType := ""; Pod.Ports := ""; Pod.VcpuCount := 0;
     Pod.VolumeInGb := 0; Pod.VolumeMountPath := ""; Pod.Machine := None |}.

Definition Pod_set_Id (x : string) (p : Pod.t) : Pod.t :=
  {| Pod.Id := x;
     Pod.ContainerDiskInGb := Pod.ContainerDiskInGb p;
     Pod.CostPerHr := Pod.CostPerHr p;
     Pod.DesiredStatus := Pod.DesiredStatus p;
     Pod.DockerArgs := Pod.DockerArgs p;
     Pod.Env := Pod.Env p;
     Pod.GpuCount := Pod.GpuCount p;
     Pod.ImageName := Pod.ImageName p;
     Pod.MemoryInGb := Pod.MemoryInGb p;
     Pod.Name := Pod.Name p;
     Pod.PodType := Pod.PodType p;
     Pod.Ports := Pod.Ports p;
     Pod.VcpuCount := Pod.VcpuCount p;
     Pod.VolumeInGb := Pod.VolumeInGb p;
     Pod.VolumeMountPath := Pod.VolumeMountPath p;
     Pod.Machine := Pod.Machine p |}.

Definition Pod_set_ContainerDiskInGb (x : Z) (p : Pod.t) : Pod.t :=
  {| Pod.Id := Pod.Id p;
     Pod.ContainerDiskInGb := x;
     Pod.CostPerHr := Pod.CostPerHr p;
     Pod.DesiredStatus := Pod.DesiredStatus p;
     Pod.DockerArgs := Pod.DockerArgs p;
     Pod.Env := Pod.Env p;
     Pod.GpuCount := Pod.GpuCount p;
     Pod.ImageName := Pod.ImageName p;
     Pod.MemoryInGb := Pod.MemoryInGb p;
     Pod.Name := Pod.Name p;
     Pod.PodType := Pod.PodType p;
     Pod.Ports := Pod.Ports p;
     Pod.VcpuCount := Pod.VcpuCount p;
     Pod.VolumeInGb := Pod.VolumeInGb p;
     Pod.VolumeMountPath := Pod.VolumeMountPath p;
     Pod.Machine := Pod.Machine p |}.

Definition Pod_set_CostPerHr (x : float32) (p : Pod.t) : Pod.t :=
  {| Pod.Id := Pod.Id p;
     Pod.ContainerDiskInGb := Pod.ContainerDiskInGb p;
     Pod.CostPerHr := x;
     Pod.DesiredStatus := Pod.DesiredStatus p;
     Pod.DockerArgs := Pod.DockerArgs p;
     Pod.Env := Pod.Env p;
     Pod.GpuCount := Pod.GpuCount p;
     Pod.ImageName := Pod.ImageName p;
     Pod.MemoryInGb := Pod.MemoryInGb p;
     Pod.Name := Pod.Name p;
     Pod.PodType := Pod.PodType p;
     Pod.Ports := Pod.Ports p;
     Pod.VcpuCount := Pod.VcpuCount p;
     Pod.VolumeInGb := Pod.VolumeInGb p;
     Pod.VolumeMountPath := Pod.VolumeMountPath p;
     Pod.Machine := Pod.Machine p |}.

Definition Pod_set_DesiredStatus (x : string) (p : Pod.t) : Pod.t :=
  {| Pod.Id := Pod.Id p;
     Pod.ContainerDiskInGb := Pod.ContainerDiskInGb p;
     Pod.CostPerHr := Pod.CostPerHr p;
     Pod.DesiredStatus := x;
     Pod.DockerArgs := Pod.DockerArgs p;
     Pod.Env := Pod.Env p;
     Pod.GpuCount := Pod.GpuCount p;
     Pod.ImageName := Pod.ImageName p;
     Pod.MemoryInGb := Pod.MemoryInGb p;
     Pod.Name := Pod.Name p;
     Pod.PodType := Pod.PodType p;
     Pod.Ports := Pod.Ports p;
     Pod.VcpuCount := Pod.VcpuCount p;
     Pod.VolumeInGb := Pod.VolumeInGb p;
     Pod.VolumeMountPath := Pod.VolumeMountPath p;
     Pod.Machine := Pod.Machine p |}.

Definition Pod_set_DockerArgs (x : string) (p : Pod.t) : Pod.t :=
  {| Pod.Id := Pod.Id p;
     Pod.ContainerDiskInGb := Pod.ContainerDiskInGb p;
     Pod.CostPerHr := Pod.CostPerHr p;
     Pod.DesiredStatus := Pod.DesiredStatus p;
     Pod.DockerArgs := x;
     Pod.Env := Pod.Env p;
     Pod.GpuCount := Pod.GpuCount p;
     Pod.ImageName := Pod.ImageName p;
     Pod.MemoryInGb := Pod.MemoryInGb p;
     Pod.Name := Pod.Name p;
     Pod.PodType := Pod.PodType p;
     Pod.Ports := Pod.Ports p;
     Pod.VcpuCount := Pod.VcpuCount p;
     Pod.VolumeInGb := Pod.VolumeInGb p;
     Pod.VolumeMountPath := Pod.VolumeMountPath p;
     Pod.Machine := Pod.Machine p |}.

Definition Pod_set_Env (x : list string) (p : Pod.t) : Pod.t :=
  {| Pod.Id := Pod.Id p;
     Pod.ContainerDiskInGb := Pod.ContainerDiskInGb p;
     Pod.CostPerHr := Pod.CostPerHr p;
     Pod.DesiredStatus := Pod.DesiredStatus p;
     Pod.DockerArgs := Pod.DockerArgs p;
     Pod.Env := x;
     Pod.GpuCount := Pod.GpuCount p;
     Pod.ImageName := Pod.ImageName p;
     Pod.MemoryInGb := Pod.MemoryInGb p;
     Pod.Name := Pod.Name p;
     Pod.PodType := Pod.PodType p;
     Pod.Ports := Pod.Ports p;
     Pod.VcpuCount := Pod.VcpuCount p;
     Pod.VolumeInGb := Pod.VolumeInGb p;
     Pod.VolumeMountPath := Pod.VolumeMountPath p;
     Pod.Machine := Pod.Machine p |}.

Definition Pod_set_GpuCount (x : Z) (p : Pod.t) : Pod.t :=
  {| Pod.Id := Pod.Id p;
     Pod.ContainerDiskInGb := Pod.ContainerDiskInGb p;
     Pod.CostPerHr := Pod.CostPerHr p;
     Pod.DesiredStatus := Pod.DesiredStatus p;
     Pod.DockerArgs := Pod.DockerArgs p;
     Pod.Env := Pod.Env p;
     Pod.GpuCount := x;
     Pod.ImageName := Pod.ImageName p;
     Pod.MemoryInGb := Pod.MemoryInGb p;
     Pod.Name := Pod.Name p;
     Pod.PodType := Pod.PodType p;
     Pod.Ports := Pod.Ports p;
     Pod.VcpuCount := Pod.VcpuCount p;
     Pod.VolumeInGb := Pod.VolumeInGb p;
     Pod.VolumeMountPath := Pod.VolumeMountPath p;
     Pod.Machine := Pod.Machine p |}.

Definition Pod_set_ImageName (x : string) (p : Pod.t) : Pod.t :=
  {| Pod.Id := Pod.Id p;
     Pod.ContainerDiskInGb := Pod.ContainerDiskInGb p;
     Pod.CostPerHr := Pod.CostPerHr p;
     Pod.DesiredStatus := Pod.DesiredStatus p;
     Pod.DockerArgs := Pod.DockerArgs p;
     Pod.Env := Pod.Env p;
     Pod.GpuCount := Pod.GpuCount p;
     Pod.ImageName := x;
     Pod.MemoryInGb := Pod.MemoryInGb p;
     Pod.Name := Pod.Name p;
     Pod.PodType := Pod.PodType p;
     Pod.Ports := Pod.Ports p;
     Pod.VcpuCount := Pod.VcpuCount p;
     Pod.VolumeInGb := Pod.VolumeInGb p;
     Pod.VolumeMountPath := Pod.VolumeMountPath p;
     Pod.Machine := Pod.Machine p |}.

Definition Pod_set_MemoryInGb (x : Z) (p : Pod.t) : Pod.t :=
  {| Pod.Id := Pod.Id p;
     Pod.ContainerDiskInGb := Pod.ContainerDiskInGb p;
     Pod.CostPerHr := Pod.CostPerHr p;
     Pod.DesiredStatus := Pod.DesiredStatus p;
     Pod.DockerArgs := Pod.DockerArgs p;
     Pod.Env := Pod.Env p;
     Pod.GpuCount := Pod.GpuCount p;
     Pod.ImageName := Pod.ImageName p;
     Pod.MemoryInGb := x;
     Pod.Name := Pod.Name p;
     Pod.PodType := Pod.PodType p;
     Pod.Ports := Pod.Ports p;
     Pod.VcpuCount := Pod.VcpuCount p;
     Pod.VolumeInGb := Pod.VolumeInGb p;
     Pod.VolumeMountPath := Pod.VolumeMountPath p;
     Pod.Machine := Pod.Machine p |}.

Definition Pod_set_Name (x : string) (p : Pod.t) : Pod.t :=
  {| Pod.Id := Pod.Id p;
     Pod.ContainerDiskInGb := Pod.ContainerDiskInGb p;
     Pod.CostPerHr := Pod.CostPerHr p;
     Pod.DesiredStatus := Pod.DesiredStatus p;
     Pod.DockerArgs := Pod.DockerArgs p;
     Pod.Env := Pod.Env p;
     Pod.GpuCount := Pod.GpuCount p;
     Pod.ImageName := Pod.ImageName p;
     Pod.MemoryInGb := Pod.MemoryInGb p;
     Pod.Name := x;
     Pod.PodType := Pod.PodType p;
     Pod.Ports := Pod.Ports p;
     Pod.VcpuCount := Pod.VcpuCount p;
     Pod.VolumeInGb := Pod.VolumeInGb p;
     Pod.VolumeMountPath := Pod.VolumeMountPath p;
     Pod.Machine := Pod.Machine p |}.

Definition Pod_set_PodType (x : string) (p : Pod.t) : Pod.t :=
  {| Pod.Id := Pod.Id p;
     Pod.ContainerDiskInGb := Pod.ContainerDiskInGb p;
     Pod.CostPerHr := Pod.CostPerHr p;
     Pod.DesiredStatus := Pod.DesiredStatus p;
     Pod.DockerArgs := Pod.DockerArgs p;
     Pod.Env := Pod.Env p;
     Pod.GpuCount := Pod.GpuCount p;
     Pod.ImageName := Pod.ImageName p;
     Pod.MemoryInGb := Pod.MemoryInGb p;
     Pod.Name := Pod.Name p;
     Pod.PodType := x;
     Pod.Ports := Pod.Ports p;
     Pod.VcpuCount := Pod.VcpuCount p;
     Pod.VolumeInGb := Pod.VolumeInGb p;
     Pod.VolumeMountPath := Pod.VolumeMountPath p;
     Pod.Machine := Pod.Machine p |}.

Definition Pod_set_Ports (x : string) (p : Pod.t) : Pod.t :=
  {| Pod.Id := Pod.Id p;
     Pod.ContainerDiskInGb := Pod.ContainerDiskInGb p;
     Pod.CostPerHr := Pod.CostPerHr p;
     Pod.DesiredStatus := Pod.DesiredStatus p;
     Pod.DockerArgs := Pod.DockerArgs p;
     Pod.Env := Pod.Env p;
     Pod.GpuCount := Pod.GpuCount p;
     Pod.ImageName := Pod.ImageName p;
     Pod.MemoryInGb := Pod.MemoryInGb p;
     Pod.Name := Pod.Name p;
     Pod.PodType := Pod.PodType p;
     Pod.Ports := x;
     Pod.VcpuCount := Pod.VcpuCount p;
     Pod.VolumeInGb := Pod.VolumeInGb p;
     Pod.VolumeMountPath := Pod.VolumeMountPath p;
     Pod.Machine := Pod.Machine p |}.

Definition Pod_set_VcpuCount (x : Z) (p : Pod.t) : Pod.t :=
  {| Pod.Id := Pod.Id p;
     Pod.ContainerDiskInGb := Pod.ContainerDiskInGb p;
     Pod.CostPerHr := Pod.CostPerHr p;
     Pod.DesiredStatus := Pod.DesiredStatus p;
     Pod.DockerArgs := Pod.DockerArgs p;
     Pod.Env := Pod.Env p;
     Pod.GpuCount := Pod.GpuCount p;
     Pod.ImageName := Pod.ImageName p;
     Pod.MemoryInGb := Pod.MemoryInGb p;
     Pod.Name := Pod.Name p;
     Pod.PodType := Pod.PodType p;
     Pod.Ports := Pod.Ports p;
     Pod.VcpuCount := x;
     Pod.VolumeInGb := Pod.VolumeInGb p;
     Pod.VolumeMountPath := Pod.VolumeMountPath p;
     Pod.Machine := Pod.Machine p |}.

Definition Pod_set_VolumeInGb (x : Z) (p : Pod.t) : Pod.t :=
  {| Pod.Id := Pod.Id p;
     Pod.ContainerDiskInGb := Pod.ContainerDiskInGb p;
     Pod.CostPerHr := Pod.CostPerHr p;
     Pod.DesiredStatus := Pod.DesiredStatus p;
     Pod.DockerArgs := Pod.DockerArgs p;
     Pod.Env := Pod.Env p;
     Pod.GpuCount := Pod.GpuCount p;
     Pod.ImageName := Pod.ImageName p;
     Pod.MemoryInGb := Pod.MemoryInGb p;
     Pod.Name := Pod.Name p;
     Pod.PodType := Pod.PodType p;
     Pod.Ports := Pod.Ports p;
     Pod.VcpuCount := Pod.VcpuCount p;
     Pod.VolumeInGb := x;
     Pod.VolumeMountPath := Pod.VolumeMountPath p;
     Pod.Machine := Pod.Machine p |}.

Definition Pod_set_VolumeMountPath (x : string) (p : Pod.t) : Pod.t :=
  {| Pod.Id := Pod.Id p;
     Pod.ContainerDiskInGb := Pod.ContainerDiskInGb p;
     Pod.CostPerHr := Pod.CostPerHr p;
     Pod.DesiredStatus := Pod.DesiredStatus p;
     Pod.DockerArgs := Pod.DockerArgs p;
     Pod.Env := Pod.Env p;
     Pod.GpuCount := Pod.GpuCount p;
     Pod.ImageName := Pod.ImageName p;
     Pod.MemoryInGb := Pod.MemoryInGb p;
     Pod.Name := Pod.Name p;
     Pod.PodType := Pod.PodType p;
     Pod.Ports := Pod.Ports p;
     Pod.VcpuCount := Pod.VcpuCount p;
     Pod.VolumeInGb := Pod.VolumeInGb p;
     Pod.VolumeMountPath := x;
     Pod.Machine := Pod.Machine p |}.

Definition Pod_set_Machine (x : option Machine) (p : Pod.t) : Pod.t :=
  {| Pod.Id := Pod.Id p;
     Pod.ContainerDiskInGb := Pod.ContainerDiskInGb p;
     Pod.CostPerHr := Pod.CostPerHr p;
     Pod.DesiredStatus := Pod.DesiredStatus p;
     Pod.DockerArgs := Pod.DockerArgs p;
     Pod.Env := Pod.Env p;
     Pod.GpuCount := Pod.GpuCount p;
     Pod.ImageName := Pod.ImageName p;
     Pod.MemoryInGb := Pod.MemoryInGb p;
     Pod.Name := Pod.Name p;
     Pod.PodType := Pod.PodType p;
     Pod.Ports := Pod.Ports p;
     Pod.VcpuCount := Pod.VcpuCount p;
     Pod.VolumeInGb := Pod.VolumeInGb p;
     Pod.VolumeMountPath := Pod.VolumeMountPath p;
     Pod.Machine := x |}.

Definition Pod_fields : list (field Pod.t) :=
  [ lens_field "Id" Pod.Id Pod_set_Id decode_string;
    lens_field "ContainerDiskInGb" Pod.ContainerDiskInGb Pod_set_ContainerDiskInGb decode_int;
    lens_field "CostPerHr" Pod.CostPerHr Pod_set_CostPerHr decode_float32;
    lens_field "DesiredStatus" Pod.DesiredStatus Pod_set_DesiredStatus decode_string;
    lens_field "DockerArgs" Pod.DockerArgs Pod_set_DockerArgs decode_string;
    lens_field "Env" Pod.Env Pod_set_Env decode_strings;
    lens_field "GpuCount" Pod.GpuCount Pod_set_GpuCount decode_int;
    lens_field "ImageName" Pod.ImageName Pod_set_ImageName decode_string;
    lens_field "MemoryInGb" Pod.MemoryInGb Pod_set_MemoryInGb decode_int;
    lens_field "Name" Pod.Name Pod_set_Name decode_string;
    lens_field "PodType" Pod.PodType Pod_set_PodType decode_string;
    lens_field "Ports" Pod.Ports Pod_set_Ports decode_string;
    lens_field "VcpuCount" Pod.VcpuCount Pod_set_VcpuCount decode_int;
    lens_field "VolumeInGb" Pod.VolumeInGb Pod_set_VolumeInGb decode_int;
    lens_field "VolumeMountPath" Pod.VolumeMountPath Pod_set_VolumeMountPath decode_string;
    lens_field "Machine" Pod.Machine Pod_set_Machine decode_Machine ].

Definition decode_Pod : jdoc -> option Pod.t -> stored (option Pod.t) :=
  decode_pointer Pod_fields Pod_zero "api.Pod".

(** [Pods []*Pod]: an array gives a slice that is not nil, even when
    empty. *)
Definition decode_Pods (v : jdoc) (old : option (list (option Pod.t)))
  : stored (option (list (option Pod.t))) :=
  match v with
  | DNull => Stored None
  | DArray items =>
      stored_bind (decode_items (fun item => decode_Pod item None) items)
                  (fun l => Stored (Some l))
  | _ => Mismatch (Value_of v) "[]*api.Pod"
  end.

Definition MySelfData_fields : list (field MySelfData) :=
  [ lens_field "Pods" Pods (fun x _ => {| Pods := x |}) decode_Pods ].

Definition PodData_fields : list (field PodData) :=
  [ lens_field "Myself" Myself (fun x _ => {| Myself := x |})
      (decode_pointer MySelfData_fields {| Pods := None |} "api.MySelfData") ].

Definition GraphQLError_fields : list (field GraphQLError) :=
  [ lens_field "Message" Message (fun x _ => {| Message := x |}) decode_string ].

(** [Errors []*GraphQLError]; the nil slice is the empty list. *)
Definition decode_Errors (v : jdoc) (old : list (option GraphQLError))
  : stored (list (option GraphQLError)) :=
  match v with
  | DNull => Stored []
  | DArray items =>
      decode_items
        (fun item =>
           decode_pointer GraphQLError_fields {| Message := "" |}
             "api.GraphQLError" item None)
        items
  | _ => Mismatch (Value_of v) "[]*api.GraphQLError"
  end.

(** [PodOut] names its fields by the tags [json:"data"] and
    [json:"errors"]. *)
Definition PodOut_fields : list (field PodOut) :=
  [ lens_field "data" Data
      (fun x (out : PodOut) => {| Data := x; Errors := Errors out |})
      (decode_pointer PodData_fields {| Myself := None |} "api.PodData");
    lens_field "errors" Errors
      (fun x (out : PodOut) => {| Data := Data out; Errors := x |})
      decode_Errors ].

(** [data := &PodOut{}] followed by the storing of the document; a
    [null] document leaves the struct as it is. *)
Definition decode_PodOut (doc : jdoc) : stored PodOut :=
  let data := {| Data := None; Errors := [] |} in
  match doc with
  | DNull => Stored data
  | DObject members => store_members PodOut_fields members data
  | _ => Mismatch (Value_of doc) "api.PodOut"
  end.

(** [Unmarshal_PodOut] is [json.Unmarshal] into a [*PodOut], with [scan]
    as the reading of the text: a text that is not JSON is refused with
    the error of the reading; a document that stores is returned as
    stored; a mismatch is some error. *)
Definition follows_encoding_json
    (scan : string -> jdoc + error)
    (Unmarshal_PodOut : string -> PodOut + error) : Prop :=
  forall raw,
    match scan raw with
    | inr e => Unmarshal_PodOut raw = inr e
    | inl doc =>
        match decode_PodOut doc with
        | Stored envelope => Unmarshal_PodOut raw = inl envelope
        | Mismatch _ _ => exists e, Unmarshal_PodOut raw = inr e
        | Unmodelled => True
        end
    end.

(** *** Well-formed documents, in the words of the specification

    "A well-formed envelope with [data.myself.pods] equal to a list of N
    pod objects": what such a document looks like, and which typed value
    each part of it stands for. *)

(** The value of the member of an object that stands for the field
    [name]. *)
Definition field_value {T : Type} (fields : list (field T)) (name : string)
    (members : list (string * jdoc)) : option jdoc :=
  snd <$> List.find
            (fun member =>
               bool_decide (field_name <$> find_field fields member.1 = Some name))
            members.

(** A string member: missing or [null] for the empty string, else the
    string itself. *)
Definition is_string (o : option jdoc) (s : string) : Prop :=
  match o with
  | None | Some DNull => s = ""
  | Some (DString v) => s = v
  | Some _ => False
  end.

(** An integer member: missing or [null] for zero, else an integer literal
    that fits an [int]. *)
Definition is_int (o : option jdoc) (n : Z) : Prop :=
  match o with
  | None | Some DNull => n = 0%Z
  | Some (DNumber literal) => parse_number literal ≫= ParseInt = Some n
  | Some _ => False
  end.

(** A number member: missing or [null] for zero, else a number literal
    within the range of binary32, standing for the nearest binary32
    number. *)
Definition is_float32 (o : option jdoc) (f : float32) : Prop :=
  match o with
  | None | Some DNull => f = S754_zero false
  | Some (DNumber literal) => parse_number literal ≫= ParseFloat32 = Some f
  | Some _ => False
  end.

(** A list of strings; a [null] in the list stands for the empty
    string. *)
Definition is_strings (o : option jdoc) (l : list string) : Prop :=
  match o with
  | None | Some DNull => l = []
  | Some (DArray items) => Forall2 (fun item s => is_string (Some item) s) items l
  | Some _ => False
  end.

(** The machine of a pod: missing or [null] for none, else an object. *)
Definition is_Machine (o : option jdoc) (m : option Machine) : Prop :=
  match o with
  | None | Some DNull => m = None
  | Some (DObject members) =>
      unrepeated Machine_fields members = true
      /\ exists machine,
           m = Some machine
           /\ is_string (field_value Machine_fields "GpuDisplayName" members)
                (GpuDisplayName machine)
  | Some _ => False
  end.

(** A well-formed pod object and the typed pod it stands for: an object
    that names no field twice and whose members have the kinds the fields
    ask for.  Members that stand for no field of [Pod] are free. *)
Definition pod_object (item : jdoc) (pod : Pod.t) : Prop :=
  match item with
  | DObject members =>
      let the name := field_value Pod_fields name members in
      unrepeated Pod_fields members = true
      /\ is_string (the "Id") (Pod.Id pod)
      /\ is_int (the "ContainerDiskInGb") (Pod.ContainerDiskInGb pod)
      /\ is_float32 (the "CostPerHr") (Pod.CostPerHr pod)
      /\ is_string (the "DesiredStatus") (Pod.DesiredStatus pod)
      /\ is_string (the "DockerArgs") (Pod.DockerArgs pod)
      /\ is_strings (the "Env") (Pod.Env pod)
      /\ is_int (the "GpuCount") (Pod.GpuCount pod)
      /\ is_string (the "ImageName") (Pod.ImageName pod)
      /\ is_int (the "MemoryInGb") (Pod.MemoryInGb pod)
      /\ is_string (the "Name") (Pod.Name pod)
      /\ is_string (the "PodType") (Pod.PodType pod)
      /\ is_string (the "Ports") (Pod.Ports pod)
      /\ is_int (the "VcpuCount") (Pod.VcpuCount pod)
      /\ is_int (the "VolumeInGb") (Pod.VolumeInGb pod)
      /\ is_string (the "VolumeMountPath") (Pod.VolumeMountPath pod)
      /\ is_Machine (the "Machine") (Pod.Machine pod)
  | _ => False
  end.

(** An envelope without errors whose [data.myself.pods] is the list
    [items]. *)
Definition envelope_with_pods (doc : jdoc) (items : list jdoc) : Prop :=
  exists top data myself,
    doc = DObject top
    /\ unrepeated PodOut_fields top = true
    /\ (field_value PodOut_fields "errors" top = None
        \/ field_value PodOut_fields "errors" top = Some DNull
        \/ field_value PodOut_fields "errors" top = Some (DArray []))
    /\ field_value PodOut_fields "data" top = Some (DObject data)
    /\ unrepeated PodData_fields data = true
    /\ field_value PodData_fields "Myself" data = Some (DObject myself)
    /\ unrepeated MySelfData_fields myself = true
    /\ field_value MySelfData_fields "Pods" myself = Some (DArray items).

(** A listing to run [GetPods] on, and a double for [json.Unmarshal]. *)
Module Listing.

Definition body : string :=
  Samples.wire
    "{'data': {'myself': {'pods': [{'id': 'p1', 'containerDiskInGb': 20, 'costPerHr': 0.35, 'desiredStatus': 'RUNNING', 'dockerArgs': '', 'dockerId': null, 'env': ['A=1'], 'gpuCount': 2, 'imageName': 'foo/bar:latest', 'lastStatusChange': 'now', 'machineId': 'm1', 'memoryInGb': 32, 'name': 'foo/bar', 'podType': 'RESERVED', 'port': null, 'ports': '8888/http', 'uptimeSeconds': 5, 'vcpuCount': 8, 'volumeInGb': 1, 'volumeMountPath': '/runpod', 'machine': {'gpuDisplayName': 'A100'}}, {'id': 'p2', 'name': 'idle', 'machine': null}]}}}".

Definition first_object : jdoc :=
  DObject
    [ ("id", DString "p1"); ("containerDiskInGb", DNumber "20");
      ("costPerHr", DNumber "0.35"); ("desiredStatus", DString "RUNNING");
      ("dockerArgs", DString ""); ("dockerId", DNull);
      ("env", DArray [DString "A=1"]); ("gpuCount", DNumber "2");
      ("imageName", DString "foo/bar:latest"); ("lastStatusChange", DString "now");
      ("machineId", DString "m1"); ("memoryInGb", DNumber "32");
      ("name", DString "foo/bar"); ("podType", DString "RESERVED");
      ("port", DNull); ("ports", DString "8888/http");
      ("uptimeSeconds", DNumber "5"); ("vcpuCount", DNumber "8");
      ("volumeInGb", DNumber "1"); ("volumeMountPath", DString "/runpod");
      ("machine", DObject [("gpuDisplayName", DString "A100")]) ].

Definition second_object : jdoc :=
  DObject [ ("id", DString "p2"); ("name", DString "idle"); ("machine", DNull) ].

Definition document : jdoc :=
  DObject
    [ ("data",
        DObject
          [ ("myself",
              DObject [ ("pods", DArray [first_object; second_object]) ]) ]) ].

(** The reading of the text, for the one body above. *)
Definition scan : string -> jdoc + error :=
  Samples.decode_table [ (body, document) ].

(** 0.35 as a binary32 number: 11744051 * 2^-25. *)
Definition cost : float32 := S754_finite false 11744051 (-25).

Definition first_pod : Pod.t :=
  {| Pod.Id := "p1"; Pod.ContainerDiskInGb := 20; Pod.CostPerHr := cost;
     Pod.DesiredStatus := "RUNNING"; Pod.DockerArgs := ""; Pod.Env := ["A=1"];
     Pod.GpuCount := 2; Pod.ImageName := "foo/bar:latest"; Pod.MemoryInGb := 32;
     Pod.Name := "foo/bar"; Pod.PodType := "RESERVED"; Pod.Ports := "8888/http";
     Pod.VcpuCount := 8; Pod.VolumeInGb := 1; Pod.VolumeMountPath := "/runpod";
     Pod.Machine := Some {| GpuDisplayName := "A100" |} |}.

Definition second_pod : Pod.t :=
  {| Pod.Id := "p2"; Pod.ContainerDiskInGb := 0; Pod.CostPerHr := S754_zero false;
     Pod.DesiredStatus := ""; Pod.DockerArgs := ""; Pod.Env := [];
     Pod.GpuCount := 0; Pod.ImageName := ""; Pod.MemoryInGb := 0;
     Pod.Name := "idle"; Pod.PodType := ""; Pod.Ports := ""; Pod.VcpuCount := 0;
     Pod.VolumeInGb := 0; Pod.VolumeMountPath := ""; Pod.Machine := None |}.

(** A double for [json.Unmarshal] into a [*PodOut]: it reads with [scan]
    and stores as [decode_PodOut] does; whatever else it is given, it
    refuses. *)
Definition Unmarshal_PodOut (scan : string -> jdoc + error)
  : string -> PodOut + error :=
  fun raw =>
    match scan raw with
    | inr e => inr e
    | inl doc =>
        match decode_PodOut doc with
        | Stored envelope => inl envelope
        | Mismatch value type_ =>
            inr (foreignError "*json.UnmarshalTypeError" (value +:+ " into " +:+ type_))
        | Unmodelled => inr (foreignError "double" "not followed")
        end
    end.

End Listing.

(** ** Vocabulary for the further properties *)

(** The struct [CreatePod] leaves behind its pointer and sends: the input
    with its [Name] derived when it came empty. *)
Definition CreatePod_named (p : CreatePodInput.t) : CreatePodInput.t :=
  if String.eqb (CreatePodInput.Name p) ""
  then CreatePodInput.set_Name (up_to_colon (CreatePodInput.ImageName p)) p
  else p.

(** The transport answered [input] with status 200 and a body that reads to
    its end as [raw], which the decoder turns into [data]. *)
Definition answered {A : Type}
    (Query : Input -> Response + error) (Unmarshal : string -> A + error)
    (input : Input) (raw : string) (data : A) : Prop :=
  exists res,
    Query input = inl res
    /\ StatusCode res = 200%Z
    /\ io_ReadAll (Body res) = (raw, None)
    /\ Unmarshal raw = inl data.

(** The first entry of an errors list gives a message: it is an object
    with a string under [message]. *)
Definition well_formed_error (first : json) : Prop :=
  exists fields msg,
    first = JObject fields /\ fields !! "message" = Some (JString msg).

(** Further sample responses. *)
Module MoreSamples.

Definition body_stopped : string :=
  Samples.wire "{'data': {'podStop': {'id': 'p1', 'desiredStatus': 'EXITED'}}}".
Definition body_created : string :=
  Samples.wire "{'data': {'podFindAndDeployOnDemand': {'id': 'p9'}}}".
Definition body_resumed : string :=
  Samples.wire "{'data': {'podResume': {}}}".
Definition body_bid_resumed : string :=
  Samples.wire "{'data': {'podBidResume': {'id': 'p1'}}}".
Definition body_error_with_data : string :=
  Samples.wire "{'errors': [{'message': 'no capacity'}], 'data': {'podStop': {'id': 'p1'}, 'podTerminate': null}}".
Definition body_errors_not_a_list : string :=
  Samples.wire "{'errors': 'boom', 'data': {'podStop': {'id': 'p1'}, 'podTerminate': null}}".
Definition body_null_data : string := Samples.wire "{'data': null}".
Definition body_empty : string := "{}".
Definition body_garbage : string := "<html>".
Definition body_no_myself : string := Samples.wire "{'data': {}}".
Definition body_null_pods : string :=
  Samples.wire "{'data': {'myself': {'pods': null}}}".
Definition body_pods_with_null : string :=
  Samples.wire "{'data': {'myself': {'pods': [null]}}}".
Definition body_no_pods : string :=
  Samples.wire "{'data': {'myself': {'pods': []}}}".
Definition body_null_error : string := Samples.wire "{'errors': [null]}".

Definition stopped : gmap string json :=
  <[ "id" := JString "p1" ]> {[ "desiredStatus" := JString "EXITED" ]}.
Definition with_id (id : string) : gmap string json := {[ "id" := JString id ]}.
Definition stop_and_terminate : json :=
  JObject (<[ "podStop" := JObject (with_id "p1") ]> {[ "podTerminate" := JNull ]}).

Definition syntaxError : error :=
  foreignError "json" "invalid character '<' looking for beginning of value".

(** What [json.Unmarshal] leaves in a [map[string]interface{}]. *)
Definition Unmarshal_map : string -> gmap string json + error :=
  fun raw =>
    if String.eqb raw body_garbage then inr syntaxError
    else
      Samples.decode_table
        [ (body_stopped, {[ "data" := JObject {[ "podStop" := JObject stopped ]} ]});
          (body_created,
            {[ "data" := JObject {[ "podFindAndDeployOnDemand" := JObject (with_id "p9") ]} ]});
          (body_resumed, {[ "data" := JObject {[ "podResume" := JObject ∅ ]} ]});
          (body_bid_resumed,
            {[ "data" := JObject {[ "podBidResume" := JObject (with_id "p1") ]} ]});
          (body_error_with_data,
            <[ "errors" := JArray [Samples.message "no capacity"] ]>
              {[ "data" := stop_and_terminate ]});
          (body_errors_not_a_list,
            <[ "errors" := JString "boom" ]> {[ "data" := stop_and_terminate ]});
          (body_null_data, {[ "data" := JNull ]});
          (body_empty, ∅);
          (body_null_error, {[ "errors" := JArray [JNull] ]}) ] raw.

(** What [json.Unmarshal] leaves in a [PodOut]. *)
Definition Unmarshal_PodOut : string -> PodOut + error :=
  fun raw =>
    if String.eqb raw body_garbage then inr syntaxError
    else
      Samples.decode_table
        [ (body_empty, {| Data := None; Errors := [] |});
          (body_no_myself, {| Data := Some {| Myself := None |}; Errors := [] |});
          (body_null_pods,
            {| Data := Some {| Myself := Some {| Pods := None |} |}; Errors := [] |});
          (body_pods_with_null,
            {| Data := Some {| Myself := Some {| Pods := Some [None] |} |};
               Errors := [] |});
          (body_no_pods,
            {| Data := Some {| Myself := Some {| Pods := Some [] |} |}; Errors := [] |});
          (body_null_error, {| Data := None; Errors := [None] |});
          (body_error_with_data,
            {| Data := Some {| Myself := None |};
               Errors := [Some {| Message := "no capacity" |}] |}) ] raw.

Definition refused : error := foreignError "net" "connection refused".

(** A transport that fails on every request. *)
Definition unreachable : Input -> Response + error := fun _ => inr refused.

End MoreSamples.

(** * Properties *)

(** ** Helper lemmas *)

Lemma status_not_200 (code : Z) : code <> 200%Z -> negb (code =? 200)%Z = true.
Proof. intros Hne. apply negb_true_iff, Z.eqb_neq, Hne. Qed.

Lemma status_200 : negb (200 =? 200)%Z = false.
Proof. reflexivity. Qed.

(** [strings.Index] for the separator [":"], one byte at a time. *)
Lemma index_colon_cons (c : ascii) (s : string) :
  index 0 ":" (String c s)
    = if Ascii.eqb c ":" then Some 0 else S <$> index 0 ":" s.
Proof.
  cbn [index String.prefix].
  destruct (ascii_dec ":" c) as [<-|Hne].
  - by destruct s.
  - replace (Ascii.eqb c ":") with false
      by (symmetry; apply Ascii.eqb_neq; congruence).
    by destruct (index 0 ":" s).
Qed.

(** A colon is found where [up_to_colon] stops. *)
Lemma index_colon (s : string) :
  match index 0 ":" s with
  | Some m => substring 0 m s = up_to_colon s
  | None => up_to_colon s = s
  end.
Proof.
  induction s as [|c s IH]; [reflexivity|].
  rewrite index_colon_cons. cbn [up_to_colon].
  destruct (Ascii.eqb c ":"); [reflexivity|].
  destruct (index 0 ":" s) as [m|]; cbn [fmap option_fmap option_map substring];
    by rewrite IH.
Qed.

(** The first segment [strings_Split] cuts off is the text up to the first
    colon; in particular the slice is never empty. *)
Lemma Split_colon_head (s : string) :
  exists rest, strings_Split s ":" = up_to_colon s :: rest.
Proof.
  unfold strings_Split. pose proof (index_colon s) as Hidx.
  destruct s as [|c s]; [by exists []|].
  cbn [String.length genSplit].
  destruct (index 0 ":" (String c s)) as [m|].
  - rewrite <- Hidx. eexists; reflexivity.
  - rewrite Hidx. by exists [].
Qed.

(** [up_to_colon] in terms of the text alone: a colon-free prefix that is
    the whole text or is followed by a colon. *)
Lemma up_to_colon_prefix (s : string) :
  exists rest, s = up_to_colon s +:+ rest
    /\ (rest = "" \/ exists tail, rest = String ":" tail).
Proof.
  induction s as [|c s (rest & Heq & Hrest)]; [exists ""; auto|].
  cbn [up_to_colon]. destruct (Ascii.eqb_spec c ":") as [->|Hne].
  - exists (String ":" s). eauto.
  - exists rest. split; [| exact Hrest].
    change (String c s = String c (up_to_colon s +:+ rest)). by rewrite <- Heq.
Qed.

Lemma up_to_colon_no_colon (s : string) :
  strings_Contains (up_to_colon s) ":" = false.
Proof.
  unfold strings_Contains.
  induction s as [|c s IH]; [reflexivity|].
  cbn [up_to_colon]. destruct (Ascii.eqb c ":") eqn:Hc; [reflexivity|].
  rewrite index_colon_cons, Hc.
  by destruct (index 0 ":" (up_to_colon s)).
Qed.

Lemma up_to_colon_id (s : string) :
  strings_Contains s ":" = false -> up_to_colon s = s.
Proof.
  unfold strings_Contains. intros H. pose proof (index_colon s) as Hidx.
  destruct (index 0 ":" s); [discriminate | exact Hidx].
Qed.

Lemma substring_length_le (a b : nat) (s : string) :
  String.length (substring a b s) <= b.
Proof.
  revert a b. induction s as [|c s IH]; intros [|a] [|b]; cbn; try lia.
  - specialize (IH 0 b). lia.
  - apply (IH a 0).
  - apply (IH a (S b)).
Qed.

(** More rounds than [length s] change nothing: [genSplit] has stopped by
    then. *)
Lemma genSplit_rounds (sep : string) (n m : nat) (s : string) :
  sep <> "" ->
  String.length s <= n -> String.length s <= m ->
  genSplit n s sep = genSplit m s sep.
Proof.
  intros Hsep. revert m s.
  assert (Hstop : forall k, genSplit k "" sep = [""]).
  { intros [|k]; [reflexivity|]. cbn [genSplit].
    destruct sep; [done | reflexivity]. }
  induction n as [|n IH]; intros m s Hn Hm.
  - destruct s; [|cbn in Hn; lia]. by rewrite !Hstop.
  - destruct m as [|m].
    + destruct s; [|cbn in Hm; lia]. by rewrite !Hstop.
    + destruct s as [|c s]; [by rewrite !Hstop|].
      cbn [genSplit]. destruct (index 0 sep (String c s)) as [k|]; [|reflexivity].
      f_equal.
      pose proof (substring_length_le (k + String.length sep)
        (String.length (String c s) - (k + String.length sep)) (String c s)).
      assert (0 < String.length sep) by (destruct sep; [done | cbn; lia]).
      cbn [String.length] in *. apply IH; lia.
Qed.

(** ** Stepping through an operation *)

(** Unfolds [CreatePod] on a non-nil pointer and settles the name. *)
Ltac enter_CreatePod p :=
  unfold CreatePod;
  destruct (String.eqb (CreatePodInput.Name p) "") eqn:?;
  [ destruct (Split_colon_head (CreatePodInput.ImageName p)) as [? ->] | ];
  cbn [fst snd].

Lemma map_index_Some (m : gmap string json) (k : string) (v : json) :
  m !! k = Some v -> map_index m k = v.
Proof. intros H. unfold map_index. by rewrite H. Qed.

Lemma map_index_None (m : gmap string json) (k : string) :
  m !! k = None -> map_index m k = JNull.
Proof. intros H. unfold map_index. by rewrite H. Qed.

(** Follows the response through the checks, using what is known about the
    transport, the status code and the decoder. *)
Ltac step_response :=
  cbn [StatusCode Body io_ReadAll readable contents read_err];
  repeat first
    [ rewrite status_200
    | rewrite status_not_200 by assumption
    | match goal with
      | H : ?m !! ?k = Some ?v |- context [map_index ?m ?k] =>
          rewrite (map_index_Some m k v H)
      | H : ?m !! ?k = None |- context [map_index ?m ?k] =>
          rewrite (map_index_None m k H)
      | H : ?Q _ = _ |- context [?Q _] => rewrite H
      | H : forall x, ?Q x = _ |- context [?Q _] => rewrite H
      | H : map_index _ _ = _ |- _ => rewrite H
      end
    | progress cbn [StatusCode Body io_ReadAll readable contents read_err
                    as_slice as_map as_string Errors Data Message] ].

(** ** Precedence of the status check *)

(** C1. When the status code is not 200 and the body is a readable
    envelope with a non-empty errors list and null data, each of the six
    operations leaves through the status-code return with an error that
    carries the code; it is not the GraphQL-errors return and not the
    data-is-nil return. *)
Theorem status_error_precedes_graphql_errors
    (Query : Input -> Response + error)
    (Unmarshal_PodOut : string -> PodOut + error)
    (Unmarshal_map : string -> gmap string json + error)
    (code : Z) (raw : string)
    (envelope : PodOut) (first : option GraphQLError) (rest : list (option GraphQLError))
    (data : gmap string json) (first' : json) (rest' : list json)
    (podInput : CreatePodInput.t) (id : string) (bidPerGpu : float32) :
  code <> 200%Z ->
  (forall input, Query input = inl {| StatusCode := code; Body := readable raw |}) ->
  Unmarshal_PodOut raw = inl envelope ->
  Errors envelope = first :: rest ->
  Data envelope = None ->
  Unmarshal_map raw = inl data ->
  data !! "errors" = Some (JArray (first' :: rest')) ->
  map_index data "data" = JNull ->
  GetPods Query Unmarshal_PodOut
    = Return exitStatusCode None
        (Some (errorString ("statuscode " +:+ fmt_d code)))
  /\ (CreatePod Query Unmarshal_map (Some podInput)).2
    = Return exitStatusCode None
        (Some (errorString ("statuscode " +:+ fmt_d code +:+ ": " +:+ raw)))
  /\ StopPod Query Unmarshal_map id
    = Return exitStatusCode None
        (Some (errorString ("statuscode " +:+ fmt_d code)))
  /\ RemovePod Query Unmarshal_map id
    = Return exitStatusCode false
        (Some (errorString ("statuscode " +:+ fmt_d code)))
  /\ StartOnDemandPod Query Unmarshal_map id
    = Return exitStatusCode None
        (Some (errorString ("PodBidResume: statuscode " +:+ fmt_d code)))
  /\ StartSpotPod Query Unmarshal_map id bidPerGpu
    = Return exitStatusCode None
        (Some (errorString ("PodBidResume: statuscode " +:+ fmt_d code))).
Proof.
  intros Hcode HQ _ _ _ _ _ _.
  repeat split.
  - unfold GetPods. by step_response.
  - enter_CreatePod podInput; by step_response.
  - unfold StopPod. by step_response.
  - unfold RemovePod. by step_response.
  - unfold StartOnDemandPod. by step_response.
  - unfold StartSpotPod. by step_response.
Qed.

Import Samples.

(** C1 on the sample envelope with two errors, answered with status 500. *)
Lemma status_error_precedes_graphql_errors_witness :
  GetPods (respond 500 (readable body_two_errors)) Samples.Unmarshal_PodOut
    = Return exitStatusCode None (Some (errorString "statuscode 500"))
  /\ (CreatePod (respond 500 (readable body_two_errors)) Samples.Unmarshal_map
        (Some (unnamed "foo/bar:latest"))).2
    = Return exitStatusCode None
        (Some (errorString ("statuscode 500: " +:+ body_two_errors)))
  /\ StopPod (respond 500 (readable body_two_errors)) Samples.Unmarshal_map "p1"
    = Return exitStatusCode None (Some (errorString "statuscode 500"))
  /\ RemovePod (respond 500 (readable body_two_errors)) Samples.Unmarshal_map "p1"
    = Return exitStatusCode false (Some (errorString "statuscode 500"))
  /\ StartOnDemandPod (respond 500 (readable body_two_errors)) Samples.Unmarshal_map "p1"
    = Return exitStatusCode None (Some (errorString "PodBidResume: statuscode 500"))
  /\ StartSpotPod (respond 500 (readable body_two_errors)) Samples.Unmarshal_map "p1" zero
    = Return exitStatusCode None (Some (errorString "PodBidResume: statuscode 500")).
Proof.
  apply (status_error_precedes_graphql_errors
           (respond 500 (readable body_two_errors))
           Samples.Unmarshal_PodOut Samples.Unmarshal_map 500 body_two_errors
           {| Data := None;
              Errors := [Some {| Message := "A" |}; Some {| Message := "B" |}] |}
           (Some {| Message := "A" |}) [Some {| Message := "B" |}]
           (<[ "errors" := JArray [message "A"; message "B"] ]> {[ "data" := JNull ]})
           (message "A") [message "B"]).
  - lia.
  - reflexivity.
  - reflexivity.
  - reflexivity.
  - reflexivity.
  - reflexivity.
  - vm_compute. reflexivity.
  - vm_compute. reflexivity.
Defined.

(** ** GraphQL errors *)

(** C2. On a status-200 response whose envelope has a non-empty errors
    list and null data, each operation fails through the GraphQL-errors
    return with exactly the first entry's message; the entries behind it
    play no part, and the data-is-nil return is not reached. *)
Theorem graphql_error_is_first_message
    (Query : Input -> Response + error)
    (Unmarshal_PodOut : string -> PodOut + error)
    (Unmarshal_map : string -> gmap string json + error)
    (raw msg : string)
    (envelope : PodOut) (rest : list (option GraphQLError))
    (data first : gmap string json) (rest' : list json)
    (podInput : CreatePodInput.t) (id : string) (bidPerGpu : float32) :
  (forall input, Query input = inl {| StatusCode := 200; Body := readable raw |}) ->
  Unmarshal_PodOut raw = inl envelope ->
  Errors envelope = Some {| Message := msg |} :: rest ->
  Data envelope = None ->
  Unmarshal_map raw = inl data ->
  data !! "errors" = Some (JArray (JObject first :: rest')) ->
  first !! "message" = Some (JString msg) ->
  map_index data "data" = JNull ->
  GetPods Query Unmarshal_PodOut
    = Return exitGraphQLErrors None (Some (errorString msg))
  /\ (CreatePod Query Unmarshal_map (Some podInput)).2
    = Return exitGraphQLErrors None (Some (errorString msg))
  /\ StopPod Query Unmarshal_map id
    = Return exitGraphQLErrors None (Some (errorString msg))
  /\ RemovePod Query Unmarshal_map id
    = Return exitGraphQLErrors true (Some (errorString msg))
  /\ StartOnDemandPod Query Unmarshal_map id
    = Return exitGraphQLErrors None (Some (errorString msg))
  /\ StartSpotPod Query Unmarshal_map id bidPerGpu
    = Return exitGraphQLErrors None (Some (errorString msg)).
Proof.
  intros HQ HPodOut Herrors _ Hmap Hlist Hmessage _.
  assert (Hfirst : first_error_message (JObject first) = inl msg).
  { unfold first_error_message, map_index. cbn [as_map from_option Datatypes.id].
    by rewrite Hmessage. }
  repeat split.
  - unfold GetPods. by step_response.
  - enter_CreatePod podInput; by step_response.
  - unfold StopPod. by step_response.
  - unfold RemovePod. by step_response.
  - unfold StartOnDemandPod. by step_response.
  - unfold StartSpotPod. by step_response.
Qed.

(** C2 on the envelope [{"errors": [{"message":"A"},{"message":"B"}],
    "data": null}]: the reported message is ["A"]. *)
Lemma graphql_error_is_first_message_witness :
  GetPods (respond 200 (readable body_two_errors)) Samples.Unmarshal_PodOut
    = Return exitGraphQLErrors None (Some (errorString "A"))
  /\ (CreatePod (respond 200 (readable body_two_errors)) Samples.Unmarshal_map
        (Some (unnamed "foo/bar:latest"))).2
    = Return exitGraphQLErrors None (Some (errorString "A"))
  /\ StopPod (respond 200 (readable body_two_errors)) Samples.Unmarshal_map "p1"
    = Return exitGraphQLErrors None (Some (errorString "A"))
  /\ RemovePod (respond 200 (readable body_two_errors)) Samples.Unmarshal_map "p1"
    = Return exitGraphQLErrors true (Some (errorString "A"))
  /\ StartOnDemandPod (respond 200 (readable body_two_errors)) Samples.Unmarshal_map "p1"
    = Return exitGraphQLErrors None (Some (errorString "A"))
  /\ StartSpotPod (respond 200 (readable body_two_errors)) Samples.Unmarshal_map "p1" zero
    = Return exitGraphQLErrors None (Some (errorString "A")).
Proof.
  apply (graphql_error_is_first_message
           (respond 200 (readable body_two_errors))
           Samples.Unmarshal_PodOut Samples.Unmarshal_map body_two_errors "A"
           {| Data := None;
              Errors := [Some {| Message := "A" |}; Some {| Message := "B" |}] |}
           [Some {| Message := "B" |}]
           (<[ "errors" := JArray [message "A"; message "B"] ]> {[ "data" := JNull ]})
           {[ "message" := JString "A" ]} [message "B"]).
  - reflexivity.
  - reflexivity.
  - reflexivity.
  - reflexivity.
  - reflexivity.
  - vm_compute. reflexivity.
  - vm_compute. reflexivity.
  - vm_compute. reflexivity.
Defined.

(** ** Reading the body and checking the status *)

(** C3, as stated, fails for [CreatePod]: it reads the body before it looks
    at the status code, so with status 500 and a body whose read breaks
    off the error returned is the read failure. *)
Lemma CreatePod_read_failure_hides_status :
  500%Z <> 200%Z
  /\ (CreatePod (respond 500 broken_body) Samples.Unmarshal_map
        (Some (unnamed "foo/bar:latest"))).2
     = Return exitReadAll None (Some unexpectedEOF).
Proof. split; [lia | reflexivity]. Qed.

(** C3, amended.  With a status code other than 200, [GetPods], [StopPod],
    [RemovePod], [StartOnDemandPod] and [StartSpotPod] return the status
    error without reading the body, readable or not.  [CreatePod] reads
    the body first: a read failure is returned whatever the status code,
    and only a body read to its end leads to the status error. *)
Theorem status_check_and_body_read
    (Query : Input -> Response + error)
    (Unmarshal_PodOut : string -> PodOut + error)
    (Unmarshal_map : string -> gmap string json + error)
    (code : Z) (body : ReadCloser)
    (podInput : CreatePodInput.t) (id : string) (bidPerGpu : float32) :
  code <> 200%Z ->
  (forall input, Query input = inl {| StatusCode := code; Body := body |}) ->
  GetPods Query Unmarshal_PodOut
    = Return exitStatusCode None
        (Some (errorString ("statuscode " +:+ fmt_d code)))
  /\ StopPod Query Unmarshal_map id
    = Return exitStatusCode None
        (Some (errorString ("statuscode " +:+ fmt_d code)))
  /\ RemovePod Query Unmarshal_map id
    = Return exitStatusCode false
        (Some (errorString ("statuscode " +:+ fmt_d code)))
  /\ StartOnDemandPod Query Unmarshal_map id
    = Return exitStatusCode None
        (Some (errorString ("PodBidResume: statuscode " +:+ fmt_d code)))
  /\ StartSpotPod Query Unmarshal_map id bidPerGpu
    = Return exitStatusCode None
        (Some (errorString ("PodBidResume: statuscode " +:+ fmt_d code)))
  /\ (forall e, read_err body = Some e ->
        (CreatePod Query Unmarshal_map (Some podInput)).2
          = Return exitReadAll None (Some e))
  /\ (read_err body = None ->
        (CreatePod Query Unmarshal_map (Some podInput)).2
          = Return exitStatusCode None
              (Some (errorString ("statuscode " +:+ fmt_d code
                                    +:+ ": " +:+ contents body)))).
Proof.
  intros Hcode HQ.
  repeat split.
  - unfold GetPods. by step_response.
  - unfold StopPod. by step_response.
  - unfold RemovePod. by step_response.
  - unfold StartOnDemandPod. by step_response.
  - unfold StartSpotPod. by step_response.
  - intros e He. enter_CreatePod podInput; by step_response.
  - intros Hread. enter_CreatePod podInput; by step_response.
Qed.

(** C3 amended, on status 500 with a body whose read breaks off. *)
Lemma status_check_and_body_read_witness :
  GetPods (respond 500 broken_body) Samples.Unmarshal_PodOut
    = Return exitStatusCode None (Some (errorString "statuscode 500"))
  /\ StopPod (respond 500 broken_body) Samples.Unmarshal_map "p1"
    = Return exitStatusCode None (Some (errorString "statuscode 500"))
  /\ RemovePod (respond 500 broken_body) Samples.Unmarshal_map "p1"
    = Return exitStatusCode false (Some (errorString "statuscode 500"))
  /\ StartOnDemandPod (respond 500 broken_body) Samples.Unmarshal_map "p1"
    = Return exitStatusCode None (Some (errorString "PodBidResume: statuscode 500"))
  /\ StartSpotPod (respond 500 broken_body) Samples.Unmarshal_map "p1" zero
    = Return exitStatusCode None (Some (errorString "PodBidResume: statuscode 500"))
  /\ (CreatePod (respond 500 broken_body) Samples.Unmarshal_map
        (Some (unnamed "foo/bar:latest"))).2
    = Return exitReadAll None (Some unexpectedEOF)
  /\ (CreatePod (respond 500 (readable "oops")) Samples.Unmarshal_map
        (Some (unnamed "foo/bar:latest"))).2
    = Return exitStatusCode None (Some (errorString "statuscode 500: oops")).
Proof.
  destruct (status_check_and_body_read
              (respond 500 broken_body)
              Samples.Unmarshal_PodOut Samples.Unmarshal_map 500 broken_body
              (unnamed "foo/bar:latest") "p1" zero)
    as (HGet & HStop & HRemove & HResume & HSpot & HCreate & _);
    [lia | reflexivity |].
  destruct (status_check_and_body_read
              (respond 500 (readable "oops"))
              Samples.Unmarshal_PodOut Samples.Unmarshal_map 500 (readable "oops")
              (unnamed "foo/bar:latest") "p1" zero)
    as (_ & _ & _ & _ & _ & _ & HCreate');
    [lia | reflexivity |].
  exact (conj HGet (conj HStop (conj HRemove (conj HResume (conj HSpot
           (conj (HCreate unexpectedEOF eq_refl) (HCreate' eq_refl))))))).
Defined.

(** ** What a non-200 status error carries *)

(** C5, as stated, fails outside [CreatePod]: [StopPod] answered with
    status 500 and the body [pod is busy] returns an error whose text is
    [statuscode 500]; the body is not in it. *)
Lemma StopPod_status_error_drops_body :
  StopPod (respond 500 (readable "pod is busy")) Samples.Unmarshal_map "p1"
    = Return exitStatusCode None (Some (errorString "statuscode 500"))
  /\ strings_Contains "statuscode 500" "pod is busy" = false.
Proof. split; reflexivity. Qed.

(** C5, amended.  With a status code other than 200, [CreatePod] (once the
    body is read) returns an error made of the code followed by the raw
    body; the status error of [StopPod], [RemovePod], [StartOnDemandPod]
    and [StartSpotPod] is made of the code alone, whatever the body. *)
Theorem status_error_contents
    (Query : Input -> Response + error)
    (Unmarshal_map : string -> gmap string json + error)
    (code : Z) (raw : string)
    (podInput : CreatePodInput.t) (id : string) (bidPerGpu : float32) :
  code <> 200%Z ->
  (forall input, Query input = inl {| StatusCode := code; Body := readable raw |}) ->
  (exists msg,
      (CreatePod Query Unmarshal_map (Some podInput)).2
        = Return exitStatusCode None (Some (errorString msg))
      /\ msg = "statuscode " +:+ fmt_d code +:+ ": " +:+ raw)
  /\ (exists msg,
      StopPod Query Unmarshal_map id
        = Return exitStatusCode None (Some (errorString msg))
      /\ RemovePod Query Unmarshal_map id
        = Return exitStatusCode false (Some (errorString msg))
      /\ msg = "statuscode " +:+ fmt_d code)
  /\ (exists msg,
      StartOnDemandPod Query Unmarshal_map id
        = Return exitStatusCode None (Some (errorString msg))
      /\ StartSpotPod Query Unmarshal_map id bidPerGpu
        = Return exitStatusCode None (Some (errorString msg))
      /\ msg = "PodBidResume: statuscode " +:+ fmt_d code).
Proof.
  intros Hcode HQ.
  split; [|split]; eexists; repeat split.
  - enter_CreatePod podInput; by step_response.
  - unfold StopPod. by step_response.
  - unfold RemovePod. by step_response.
  - unfold StartOnDemandPod. by step_response.
  - unfold StartSpotPod. by step_response.
Qed.

(** C5 amended, on status 500 with the body [pod is busy]. *)
Lemma status_error_contents_witness :
  (CreatePod (respond 500 (readable "pod is busy")) Samples.Unmarshal_map
     (Some (unnamed "foo/bar:latest"))).2
    = Return exitStatusCode None (Some (errorString "statuscode 500: pod is busy"))
  /\ StopPod (respond 500 (readable "pod is busy")) Samples.Unmarshal_map "p1"
    = Return exitStatusCode None (Some (errorString "statuscode 500"))
  /\ StartSpotPod (respond 500 (readable "pod is busy")) Samples.Unmarshal_map "p1" zero
    = Return exitStatusCode None (Some (errorString "PodBidResume: statuscode 500")).
Proof.
  destruct (status_error_contents
              (respond 500 (readable "pod is busy")) Samples.Unmarshal_map
              500 "pod is busy" (unnamed "foo/bar:latest") "p1" zero)
    as ((m1 & HCreate & ->) & (m2 & HStop & _ & ->) & (m3 & _ & HSpot & ->));
    [lia | reflexivity |].
  exact (conj HCreate (conj HStop HSpot)).
Defined.

(** ** Success payloads *)

Lemma no_errors_cases (data : gmap string json) :
  has_errors data = false ->
  as_slice (map_index data "errors") = None
  \/ as_slice (map_index data "errors") = Some [].
Proof.
  unfold has_errors.
  destruct (as_slice (map_index data "errors")) as [[|first rest]|];
    [by right | discriminate | by left].
Qed.

Lemma map_has_Some (m : gmap string json) (k : string) (v : json) :
  m !! k = Some v -> map_has m k = true.
Proof. intros H. unfold map_has. rewrite H. by apply bool_decide_eq_true_2. Qed.

Lemma map_has_None (m : gmap string json) (k : string) :
  m !! k = None -> map_has m k = false.
Proof.
  intros H. unfold map_has. rewrite H.
  apply bool_decide_eq_false_2. by intros [v Hv].
Qed.

(** C4, as stated, fails on its second half: for the body [{"data": {}}]
    [RemovePod] returns [ok = false] together with a nil error, so no
    failure reaches the caller. *)
Lemma RemovePod_missing_key_is_not_an_error :
  RemovePod (respond 200 (readable body_no_key)) Samples.Unmarshal_map "p1"
    = Return exitSuccess false None.
Proof. reflexivity. Qed.

(** C4, amended.  On a status-200 response without GraphQL errors whose
    data is an object, [RemovePod] returns a nil error and sets [ok] by the
    presence of the key [podTerminate] alone: [true] whatever the key is
    bound to, [false] when the key is missing. *)
Theorem RemovePod_ok_is_key_presence
    (Query : Input -> Response + error)
    (Unmarshal_map : string -> gmap string json + error)
    (raw : string) (data gqldata : gmap string json) (id : string) :
  (forall input, Query input = inl {| StatusCode := 200; Body := readable raw |}) ->
  Unmarshal_map raw = inl data ->
  has_errors data = false ->
  data !! "data" = Some (JObject gqldata) ->
  (forall v, gqldata !! "podTerminate" = Some v ->
     RemovePod Query Unmarshal_map id = Return exitSuccess true None)
  /\ (gqldata !! "podTerminate" = None ->
     RemovePod Query Unmarshal_map id = Return exitSuccess false None).
Proof.
  intros HQ Hmap Herrors Hdata.
  split; [intros v Hkey; apply map_has_Some in Hkey
         | intros Hkey; apply map_has_None in Hkey];
    destruct (no_errors_cases data Herrors);
    unfold RemovePod; by step_response.
Qed.

(** C4 amended, on the bodies [{"data": {"podTerminate": null}}] and
    [{"data": {}}]. *)
Lemma RemovePod_ok_is_key_presence_witness :
  RemovePod (respond 200 (readable body_terminated)) Samples.Unmarshal_map "p1"
    = Return exitSuccess true None
  /\ RemovePod (respond 200 (readable body_no_key)) Samples.Unmarshal_map "p1"
    = Return exitSuccess false None.
Proof.
  destruct (RemovePod_ok_is_key_presence
              (respond 200 (readable body_terminated)) Samples.Unmarshal_map
              body_terminated
              {[ "data" := JObject {[ "podTerminate" := JNull ]} ]}
              {[ "podTerminate" := JNull ]} "p1")
    as [Hpresent _];
    [reflexivity | reflexivity | vm_compute; reflexivity
    | vm_compute; reflexivity |].
  destruct (RemovePod_ok_is_key_presence
              (respond 200 (readable body_no_key)) Samples.Unmarshal_map
              body_no_key {[ "data" := JObject ∅ ]} ∅ "p1")
    as [_ Habsent];
    [reflexivity | reflexivity | vm_compute; reflexivity
    | vm_compute; reflexivity |].
  refine (conj (Hpresent JNull _) (Habsent _)); vm_compute; reflexivity.
Defined.

(** C6, as stated, fails: [StopPod] has one return for a payload that is
    not an object.  A scalar under [podStop] and a missing [podStop] both
    leave through it with the same kind of error, [podStop is nil:]
    followed by the body. *)
Lemma StopPod_wrong_shape_fails_like_missing_key :
  StopPod (respond 200 (readable body_stop_scalar)) Samples.Unmarshal_map "p1"
    = Return exitPayloadNil None
        (Some (errorString ("podStop is nil: " +:+ body_stop_scalar)))
  /\ StopPod (respond 200 (readable body_no_key)) Samples.Unmarshal_map "p1"
    = Return exitPayloadNil None
        (Some (errorString ("podStop is nil: " +:+ body_no_key))).
Proof. split; reflexivity. Qed.

(** C6, amended.  On a status-200 response without GraphQL errors whose
    data is an object, [CreatePod], [StopPod], [StartOnDemandPod] and
    [StartSpotPod] fail in one and the same way when their payload key is
    bound to something that is not an object and when the key is missing:
    through the payload-is-nil return, with a fixed text followed by the
    raw body.  [RemovePod] accepts whatever its key is bound to. *)
Theorem wrong_shape_fails_like_missing_key
    (Query : Input -> Response + error)
    (Unmarshal_map : string -> gmap string json + error)
    (raw : string) (data gqldata : gmap string json) (payload : option json)
    (podInput : CreatePodInput.t) (id : string) (bidPerGpu : float32) :
  (forall input, Query input = inl {| StatusCode := 200; Body := readable raw |}) ->
  Unmarshal_map raw = inl data ->
  has_errors data = false ->
  data !! "data" = Some (JObject gqldata) ->
  (payload = None \/ exists v, payload = Some v /\ as_map v = None) ->
  (gqldata !! "podFindAndDeployOnDemand" = payload ->
     (CreatePod Query Unmarshal_map (Some podInput)).2
       = Return exitPayloadNil None (Some (errorString ("pod is nil: " +:+ raw))))
  /\ (gqldata !! "podStop" = payload ->
     StopPod Query Unmarshal_map id
       = Return exitPayloadNil None (Some (errorString ("podStop is nil: " +:+ raw))))
  /\ (gqldata !! "podResume" = payload ->
     StartOnDemandPod Query Unmarshal_map id
       = Return exitPayloadNil None (Some (errorString ("pod is nil: " +:+ raw))))
  /\ (gqldata !! "podBidResume" = payload ->
     StartSpotPod Query Unmarshal_map id bidPerGpu
       = Return exitPayloadNil None
           (Some (errorString ("podBidResume is nil: " +:+ raw))))
  /\ (forall v, gqldata !! "podTerminate" = Some v ->
     RemovePod Query Unmarshal_map id = Return exitSuccess true None).
Proof.
  intros HQ Hmap Herrors Hdata Hpayload.
  assert (Hnil : forall k, gqldata !! k = payload ->
                   as_map (map_index gqldata k) = None).
  { intros k Hk. unfold map_index. rewrite Hk.
    by destruct Hpayload as [->|(v & -> & Hv)]. }
  destruct (no_errors_cases data Herrors).
  all: repeat split.
  all: try (intros Hk%Hnil).
  all: try (intros v Hk%map_has_Some).
  all: try enter_CreatePod podInput.
  all: unfold StopPod, StartOnDemandPod, StartSpotPod, RemovePod.
  all: by step_response.
Qed.

(** C6 amended, on a number under [podStop], a list under
    [podFindAndDeployOnDemand], a string under [podResume], a boolean under
    [podBidResume], and on a body without any of the keys. *)
Lemma wrong_shape_fails_like_missing_key_witness :
  StopPod (respond 200 (readable body_stop_scalar)) Samples.Unmarshal_map "p1"
    = Return exitPayloadNil None
        (Some (errorString ("podStop is nil: " +:+ body_stop_scalar)))
  /\ (CreatePod (respond 200 (readable body_create_list)) Samples.Unmarshal_map
        (Some (unnamed "foo/bar:latest"))).2
    = Return exitPayloadNil None
        (Some (errorString ("pod is nil: " +:+ body_create_list)))
  /\ StartOnDemandPod (respond 200 (readable body_resume_string)) Samples.Unmarshal_map "p1"
    = Return exitPayloadNil None
        (Some (errorString ("pod is nil: " +:+ body_resume_string)))
  /\ StartSpotPod (respond 200 (readable body_bid_bool)) Samples.Unmarshal_map "p1" zero
    = Return exitPayloadNil None
        (Some (errorString ("podBidResume is nil: " +:+ body_bid_bool)))
  /\ StopPod (respond 200 (readable body_no_key)) Samples.Unmarshal_map "p1"
    = Return exitPayloadNil None
        (Some (errorString ("podStop is nil: " +:+ body_no_key))).
Proof.
  destruct (wrong_shape_fails_like_missing_key
              (respond 200 (readable body_stop_scalar)) Samples.Unmarshal_map
              body_stop_scalar
              {[ "data" := JObject {[ "podStop" := JNumber five ]} ]}
              {[ "podStop" := JNumber five ]} (Some (JNumber five))
              (unnamed "foo/bar:latest") "p1" zero)
    as (_ & HStop & _);
    [reflexivity | reflexivity | vm_compute; reflexivity | vm_compute; reflexivity
    | right; exists (JNumber five); split; reflexivity |].
  destruct (wrong_shape_fails_like_missing_key
              (respond 200 (readable body_create_list)) Samples.Unmarshal_map
              body_create_list
              {[ "data" := JObject {[ "podFindAndDeployOnDemand" := JArray [] ]} ]}
              {[ "podFindAndDeployOnDemand" := JArray [] ]} (Some (JArray []))
              (unnamed "foo/bar:latest") "p1" zero)
    as (HCreate & _);
    [reflexivity | reflexivity | vm_compute; reflexivity | vm_compute; reflexivity
    | right; exists (JArray []); split; reflexivity |].
  destruct (wrong_shape_fails_like_missing_key
              (respond 200 (readable body_resume_string)) Samples.Unmarshal_map
              body_resume_string
              {[ "data" := JObject {[ "podResume" := JString "up" ]} ]}
              {[ "podResume" := JString "up" ]} (Some (JString "up"))
              (unnamed "foo/bar:latest") "p1" zero)
    as (_ & _ & HResume & _);
    [reflexivity | reflexivity | vm_compute; reflexivity | vm_compute; reflexivity
    | right; exists (JString "up"); split; reflexivity |].
  destruct (wrong_shape_fails_like_missing_key
              (respond 200 (readable body_bid_bool)) Samples.Unmarshal_map
              body_bid_bool
              {[ "data" := JObject {[ "podBidResume" := JBool true ]} ]}
              {[ "podBidResume" := JBool true ]} (Some (JBool true))
              (unnamed "foo/bar:latest") "p1" zero)
    as (_ & _ & _ & HSpot & _);
    [reflexivity | reflexivity | vm_compute; reflexivity | vm_compute; reflexivity
    | right; exists (JBool true); split; reflexivity |].
  destruct (wrong_shape_fails_like_missing_key
              (respond 200 (readable body_no_key)) Samples.Unmarshal_map
              body_no_key {[ "data" := JObject ∅ ]} ∅ None
              (unnamed "foo/bar:latest") "p1" zero)
    as (_ & HStop' & _);
    [reflexivity | reflexivity | vm_compute; reflexivity | vm_compute; reflexivity
    | by left |].
  refine (conj (HStop _) (conj (HCreate _) (conj (HResume _) (conj (HSpot _) (HStop' _)))));
    vm_compute; reflexivity.
Defined.

(** ** Name derivation in [CreatePod] *)

(** Whatever the name rule leaves in the struct [sent] is what the
    transport is asked with. *)
Lemma CreatePod_asks_named
    (Unmarshal_map : string -> gmap string json + error)
    (p sent : CreatePodInput.t) :
  (forall Query : Input -> Response + error,
      (CreatePod Query Unmarshal_map (Some p)).1 = Some sent) ->
  CreatePod_asks Unmarshal_map p (CreatePod_input sent).
Proof.
  intros Hsent Query. specialize (Hsent Query). revert Hsent.
  enter_CreatePod p; intros [= <-]; (split; [reflexivity|]);
    intros e He; by rewrite He.
Qed.

(** The struct behind the pointer after the call. *)
Lemma CreatePod_struct_after
    (Query : Input -> Response + error)
    (Unmarshal_map : string -> gmap string json + error)
    (p : CreatePodInput.t) :
  (CreatePod Query Unmarshal_map (Some p)).1
    = Some (if String.eqb (CreatePodInput.Name p) ""
            then CreatePodInput.set_Name (up_to_colon (CreatePodInput.ImageName p)) p
            else p).
Proof. by enter_CreatePod p. Qed.

(** C7. With an empty [Name], the [input] variable [CreatePod] sends
    carries as [Name] the first segment of [strings_Split] on [":"], which
    is the image name up to its first colon: a colon-free prefix of the
    image name that ends where the image name ends or where its first
    colon stands.  The image ["foo/bar:latest"] is sent as ["foo/bar"]; an
    image name without a colon, such as ["foo/bar"], is sent unchanged.  A
    non-empty [Name] is sent as given. *)
Theorem CreatePod_derives_name
    (Unmarshal_map : string -> gmap string json + error)
    (p : CreatePodInput.t) :
  (CreatePodInput.Name p = "" ->
     exists name segments behind,
       strings_Split (CreatePodInput.ImageName p) ":" = name :: segments
       /\ name = up_to_colon (CreatePodInput.ImageName p)
       /\ CreatePodInput.ImageName p = name +:+ behind
       /\ (behind = "" \/ exists tail, behind = String ":" tail)
       /\ strings_Contains name ":" = false
       /\ CreatePod_sends Unmarshal_map p (CreatePodInput.set_Name name p))
  /\ (CreatePodInput.Name p = "" ->
      CreatePodInput.ImageName p = "foo/bar:latest" ->
      CreatePod_sends Unmarshal_map p (CreatePodInput.set_Name "foo/bar" p))
  /\ (CreatePodInput.Name p = "" ->
      strings_Contains (CreatePodInput.ImageName p) ":" = false ->
      CreatePod_sends Unmarshal_map p
        (CreatePodInput.set_Name (CreatePodInput.ImageName p) p))
  /\ (CreatePodInput.Name p = "" ->
      CreatePodInput.ImageName p = "foo/bar" ->
      CreatePod_sends Unmarshal_map p (CreatePodInput.set_Name "foo/bar" p))
  /\ (CreatePodInput.Name p <> "" -> CreatePod_sends Unmarshal_map p p).
Proof.
  assert (Hempty : CreatePodInput.Name p = "" ->
            CreatePod_sends Unmarshal_map p
              (CreatePodInput.set_Name (up_to_colon (CreatePodInput.ImageName p)) p)).
  { intros Hname.
    exists (CreatePod_input
              (CreatePodInput.set_Name (up_to_colon (CreatePodInput.ImageName p)) p)).
    split; [apply lookup_singleton_eq|].
    apply CreatePod_asks_named. intros Query.
    rewrite CreatePod_struct_after. by rewrite Hname. }
  split; [|split; [|split; [|split]]].
  - intros Hname.
    destruct (Split_colon_head (CreatePodInput.ImageName p)) as [segments Hsplit].
    destruct (up_to_colon_prefix (CreatePodInput.ImageName p))
      as (behind & Hprefix & Hbehind).
    exists (up_to_colon (CreatePodInput.ImageName p)), segments, behind.
    repeat split; auto using up_to_colon_no_colon.
  - intros Hname Himage. specialize (Hempty Hname). by rewrite Himage in Hempty.
  - intros Hname Hplain. specialize (Hempty Hname).
    by rewrite (up_to_colon_id _ Hplain) in Hempty.
  - intros Hname Himage. specialize (Hempty Hname). by rewrite Himage in Hempty.
  - intros Hname. exists (CreatePod_input p).
    split; [apply lookup_singleton_eq|].
    apply CreatePod_asks_named. intros Query.
    rewrite CreatePod_struct_after.
    by destruct (String.eqb_spec (CreatePodInput.Name p) "").
Qed.

(** What [echo_name] answers when the [input] variable is [sent]. *)
Lemma echo_name_answer (input : Input) (sent : CreatePodInput.t) :
  Variables input !! "input" = Some (VCreatePodInput sent) ->
  echo_name input = inr (foreignError "echo" (CreatePodInput.Name sent)).
Proof. intros H. unfold echo_name. by rewrite H. Qed.

(** C7 against a transport that reports the name it is asked to create:
    the images ["foo/bar:latest"] and ["foo/bar"] are both created as
    ["foo/bar"], and the name ["mine"] is kept. *)
Lemma CreatePod_derives_name_witness :
  (CreatePod echo_name Samples.Unmarshal_map (Some (unnamed "foo/bar:latest"))).2
    = Return exitQueryErr None (Some (foreignError "echo" "foo/bar"))
  /\ (CreatePod echo_name Samples.Unmarshal_map (Some (unnamed "foo/bar"))).2
    = Return exitQueryErr None (Some (foreignError "echo" "foo/bar"))
  /\ (CreatePod echo_name Samples.Unmarshal_map (Some (named "mine" "foo/bar:latest"))).2
    = Return exitQueryErr None (Some (foreignError "echo" "mine")).
Proof.
  destruct (CreatePod_derives_name Samples.Unmarshal_map (unnamed "foo/bar:latest"))
    as (_ & Htagged & _).
  destruct (Htagged eq_refl eq_refl) as (input1 & Hvar1 & Hasks1).
  destruct (CreatePod_derives_name Samples.Unmarshal_map (unnamed "foo/bar"))
    as (_ & _ & Hplain & _).
  destruct (Hplain eq_refl eq_refl) as (input2 & Hvar2 & Hasks2).
  destruct (CreatePod_derives_name Samples.Unmarshal_map (named "mine" "foo/bar:latest"))
    as (_ & _ & _ & _ & Hnamed).
  destruct (Hnamed ltac:(discriminate)) as (input3 & Hvar3 & Hasks3).
  exact (conj (proj2 (Hasks1 echo_name) _ (echo_name_answer _ _ Hvar1))
          (conj (proj2 (Hasks2 echo_name) _ (echo_name_answer _ _ Hvar2))
                (proj2 (Hasks3 echo_name) _ (echo_name_answer _ _ Hvar3)))).
Defined.

(** ** The caller's struct *)

(** C9. [CreatePod] writes through its pointer: when [Name] is empty, the
    caller's struct holds the derived name after the call, whatever the
    transport and the decoder do, and every other field is as it was. *)
Theorem CreatePod_writes_derived_name
    (Query : Input -> Response + error)
    (Unmarshal_map : string -> gmap string json + error)
    (p : CreatePodInput.t) :
  CreatePodInput.Name p = "" ->
  exists after,
    (CreatePod Query Unmarshal_map (Some p)).1 = Some after
    /\ CreatePodInput.Name after = up_to_colon (CreatePodInput.ImageName p)
    /\ (exists rest,
          strings_Split (CreatePodInput.ImageName p) ":"
            = CreatePodInput.Name after :: rest)
    /\ CreatePodInput.CloudType after = CreatePodInput.CloudType p
    /\ CreatePodInput.ContainerDiskInGb after = CreatePodInput.ContainerDiskInGb p
    /\ CreatePodInput.DeployCost after = CreatePodInput.DeployCost p
    /\ CreatePodInput.DockerArgs after = CreatePodInput.DockerArgs p
    /\ CreatePodInput.Env after = CreatePodInput.Env p
    /\ CreatePodInput.GpuCount after = CreatePodInput.GpuCount p
    /\ CreatePodInput.GpuTypeId after = CreatePodInput.GpuTypeId p
    /\ CreatePodInput.ImageName after = CreatePodInput.ImageName p
    /\ CreatePodInput.MinMemoryInGb after = CreatePodInput.MinMemoryInGb p
    /\ CreatePodInput.MinVcpuCount after = CreatePodInput.MinVcpuCount p
    /\ CreatePodInput.Ports after = CreatePodInput.Ports p
    /\ CreatePodInput.TemplateId after = CreatePodInput.TemplateId p
    /\ CreatePodInput.VolumeInGb after = CreatePodInput.VolumeInGb p
    /\ CreatePodInput.VolumeMountPath after = CreatePodInput.VolumeMountPath p.
Proof.
  intros Hname. rewrite CreatePod_struct_after, Hname. cbn [String.eqb].
  eexists. split; [reflexivity|]. cbn -[up_to_colon strings_Split].
  split; [reflexivity|]. split; [apply Split_colon_head|].
  repeat split.
Qed.

(** C9 on a request for the image ["foo/bar:latest"], with a transport
    that fails: the caller's struct is now named ["foo/bar"]. *)
Lemma CreatePod_writes_derived_name_witness :
  (CreatePod echo_name Samples.Unmarshal_map (Some (unnamed "foo/bar:latest"))).1
    = Some (named "foo/bar" "foo/bar:latest").
Proof.
  destruct (CreatePod_writes_derived_name echo_name Samples.Unmarshal_map
              (unnamed "foo/bar:latest") eq_refl)
    as (after & Hafter & Hfields).
  rewrite Hafter. f_equal. destruct after.
  cbn in Hfields.
  destruct Hfields as (-> & _ & -> & -> & -> & -> & -> & -> & -> & -> & -> & -> & -> & -> & -> & ->).
  reflexivity.
Defined.

(** ** Listing pods *)

(** *** Storing the members of an object *)

Section StoreEach.

Context {T : Type} (fields : list (field T)).

Lemma find_field_In (key : string) (f : field T) :
  find_field fields key = Some f -> In f fields.
Proof.
  unfold find_field.
  destruct (List.find _ fields) as [f'|] eqn:Hexact.
  - intros [= <-]. by apply find_some in Hexact as [? _].
  - intros Hfold. by apply find_some in Hfold as [? _].
Qed.

Lemma named_fields_cons (key : string) (v : jdoc) (rest : list (string * jdoc)) :
  named_fields fields ((key, v) :: rest)
    = match find_field fields key with
      | Some f => field_name f :: named_fields fields rest
      | None => named_fields fields rest
      end.
Proof. unfold named_fields. cbn. by destruct (find_field fields key). Qed.

Lemma field_value_cons (name key : string) (v : jdoc) (rest : list (string * jdoc)) :
  field_value fields name ((key, v) :: rest)
    = match find_field fields key with
      | Some f =>
          if String.eqb (field_name f) name then Some v
          else field_value fields name rest
      | None => field_value fields name rest
      end.
Proof.
  unfold field_value. cbn [List.find fst].
  destruct (find_field fields key) as [f|]; cbn [fmap option_fmap option_map].
  - destruct (String.eqb_spec (field_name f) name) as [->|Hne].
    + by rewrite bool_decide_eq_true_2.
    + rewrite bool_decide_eq_false_2; [done | congruence].
  - by rewrite bool_decide_eq_false_2.
Qed.

Lemma field_value_unnamed (name : string) (members : list (string * jdoc)) :
  name ∉ named_fields fields members -> field_value fields name members = None.
Proof.
  induction members as [|[key v] rest IH]; [done|].
  rewrite named_fields_cons, field_value_cons.
  destruct (find_field fields key) as [f|]; [|exact IH].
  intros Hnot. apply not_elem_of_cons in Hnot as [Hne Hrest].
  destruct (String.eqb_spec (field_name f) name); [congruence | by apply IH].
Qed.

(** With no field named twice, the value of a field is the value of the
    one member that stands for it. *)
Lemma field_value_member (members : list (string * jdoc))
    (key : string) (v : jdoc) (f : field T) :
  NoDup (named_fields fields members) ->
  In (key, v) members ->
  find_field fields key = Some f ->
  field_value fields (field_name f) members = Some v.
Proof.
  induction members as [|[key' v'] rest IH]; [done|].
  rewrite named_fields_cons, field_value_cons.
  intros Hnodup [[= -> ->]|Hin] Hfind.
  - rewrite Hfind. by rewrite String.eqb_refl.
  - destruct (find_field fields key') as [f'|] eqn:Hfind'; [|by apply IH].
    apply NoDup_cons in Hnodup as [Hfresh Hnodup].
    destruct (String.eqb_spec (field_name f') (field_name f)) as [Hsame|_];
      [|by apply IH].
    exfalso. apply Hfresh. rewrite Hsame.
    apply list_elem_of_omap. exists (key, v). split; [by apply list_elem_of_In|].
    cbn. by rewrite Hfind.
Qed.

(** Storing goes through when every member that stands for a field
    stores. *)
Lemma store_each_stores (members : list (string * jdoc)) :
  (forall key v f, In (key, v) members -> find_field fields key = Some f ->
     forall t, exists t', field_store f v t = Stored t') ->
  forall t, exists t', store_each fields members t = Stored t'.
Proof.
  induction members as [|[key v] rest IH]; intros Hstores t; [by exists t|].
  cbn [store_each].
  destruct (find_field fields key) as [f|] eqn:Hfind.
  - destruct (Hstores key v f (or_introl eq_refl) Hfind t) as [t1 ->].
    cbn [stored_bind]. apply IH. intros key' v' f' Hin. apply Hstores. by right.
  - apply IH. intros key' v' f' Hin. apply Hstores. by right.
Qed.

(** What a field holds after the storing: what its member decodes to, or
    what it held when no member stands for it. *)
Lemma store_each_field {A : Type} (name : string)
    (get : T -> A) (set : A -> T -> T) (decode : jdoc -> A -> stored A) :
  (forall f, In f fields -> field_name f = name ->
             f = lens_field name get set decode) ->
  (forall a t, get (set a t) = a) ->
  (forall f, In f fields -> field_name f <> name ->
             forall v t t', field_store f v t = Stored t' -> get t' = get t) ->
  forall members t t',
    NoDup (named_fields fields members) ->
    store_each fields members t = Stored t' ->
    match field_value fields name members with
    | None => get t' = get t
    | Some v => decode v (get t) = Stored (get t')
    end.
Proof.
  intros Hown Hget Hframe.
  induction members as [|[key v] rest IH]; intros t t' Hnodup Hstore.
  { by injection Hstore as ->. }
  revert Hnodup Hstore. rewrite named_fields_cons, field_value_cons.
  cbn [store_each].
  destruct (find_field fields key) as [f|] eqn:Hfind; [|by apply IH].
  intros [Hfresh Hnodup]%NoDup_cons.
  destruct (field_store f v t) as [t1| |] eqn:Hstep; try discriminate.
  cbn [stored_bind]. intros Hrest.
  pose proof (find_field_In _ _ Hfind) as Hin.
  specialize (IH t1 t' Hnodup Hrest).
  destruct (String.eqb_spec (field_name f) name) as [Hname|Hname].
  - rewrite (field_value_unnamed name rest) in IH by congruence.
    rewrite (Hown f Hin Hname) in Hstep. cbn in Hstep.
    destruct (decode v (get t)) as [a| |]; try discriminate.
    injection Hstep as <-. by rewrite IH, Hget.
  - by rewrite (Hframe f Hin Hname v t t1 Hstep) in IH.
Qed.

End StoreEach.

(** *** Values *)

Lemma is_string_stores (v : jdoc) (s old : string) :
  is_string (Some v) s -> exists a, decode_string v old = Stored a.
Proof. destruct v; cbn; try done; eauto. Qed.

Lemma is_string_decoded (o : option jdoc) (s x : string) :
  is_string o s ->
  match o with
  | None => x = ""
  | Some v => decode_string v "" = Stored x
  end ->
  x = s.
Proof. destruct o as [[]|]; cbn; try done; congruence. Qed.

Lemma is_int_stores (v : jdoc) (n old : Z) :
  is_int (Some v) n -> exists a, decode_int v old = Stored a.
Proof.
  destruct v; cbn; try done; eauto.
  destruct (parse_number literal) as [num|]; cbn; [|done].
  intros ->. eauto.
Qed.

Lemma is_int_decoded (o : option jdoc) (n x : Z) :
  is_int o n ->
  match o with
  | None => x = 0%Z
  | Some v => decode_int v 0 = Stored x
  end ->
  x = n.
Proof.
  destruct o as [[]|]; cbn; try done; try congruence.
  destruct (parse_number literal) as [num|]; cbn; [|done].
  intros ->. congruence.
Qed.

Lemma is_float32_stores (v : jdoc) (f old : float32) :
  is_float32 (Some v) f -> exists a, decode_float32 v old = Stored a.
Proof.
  destruct v; cbn; try done; eauto.
  destruct (parse_number literal) as [num|]; cbn; [|done].
  intros ->. eauto.
Qed.

Lemma is_float32_decoded (o : option jdoc) (f x : float32) :
  is_float32 o f ->
  match o with
  | None => x = S754_zero false
  | Some v => decode_float32 v (S754_zero false) = Stored x
  end ->
  x = f.
Proof.
  destruct o as [[]|]; cbn; try done; try congruence.
  destruct (parse_number literal) as [num|]; cbn; [|done].
  intros ->. congruence.
Qed.

Lemma decode_items_Forall2 {A : Type} (element : jdoc -> stored A)
    (R : jdoc -> A -> Prop) (items : list jdoc) (l : list A) :
  (forall item a, R item a -> element item = Stored a) ->
  Forall2 R items l ->
  decode_items element items = Stored l.
Proof.
  intros Helement. induction 1 as [|item a items l Hhead _ IH]; [done|].
  cbn [decode_items]. by rewrite (Helement item a Hhead), IH.
Qed.

Lemma is_strings_value (v : jdoc) (l old : list string) :
  is_strings (Some v) l -> decode_strings v old = Stored l.
Proof.
  destruct v; cbn; try done; [by intros ->|].
  apply decode_items_Forall2. intros item s. destruct item; cbn; try done; congruence.
Qed.

Lemma is_strings_decoded (o : option jdoc) (l x : list string) :
  is_strings o l ->
  match o with
  | None => x = []
  | Some v => decode_strings v [] = Stored x
  end ->
  x = l.
Proof.
  destruct o as [v|]; [|cbn; congruence].
  intros Hl. rewrite (is_strings_value v l [] Hl). congruence.
Qed.

(** *** Structs *)

(** The one entry of a table that carries a given name. *)
Ltac own_field :=
  let f := fresh "f" in
  let Hin := fresh "Hin" in
  let Hname := fresh "Hname" in
  intros f Hin Hname; cbn in Hin;
  repeat (destruct Hin as [<-|Hin];
          [first [reflexivity | cbn in Hname; discriminate Hname] |]);
  destruct Hin.

(** The other entries of a table leave a field alone. *)
Ltac frame_field :=
  let f := fresh "f" in
  let Hin := fresh "Hin" in
  let Hname := fresh "Hname" in
  let Hstore := fresh "Hstore" in
  intros f Hin Hname v t t' Hstore; cbn in Hin;
  repeat (destruct Hin as [<-|Hin];
          [first
             [ exfalso; apply Hname; reflexivity
             | cbn [field_store lens_field] in Hstore;
               unfold stored_bind in Hstore;
               match type of Hstore with
               | match ?d with _ => _ end = _ => destruct d
               end;
               try discriminate Hstore; injection Hstore as <-; reflexivity ] |]);
  destruct Hin.

(** Finds, for the member at hand, what is known of its value and stores
    it. *)
Ltac store_member :=
  cbn [field_store lens_field];
  match goal with
  | |- exists _, stored_bind (decode_string ?v ?old) _ = _ =>
      match goal with
      | H : is_string (Some v) _ |- _ =>
          destruct (is_string_stores v _ old H) as [? ->]
      end
  | |- exists _, stored_bind (decode_int ?v ?old) _ = _ =>
      match goal with
      | H : is_int (Some v) _ |- _ =>
          destruct (is_int_stores v _ old H) as [? ->]
      end
  | |- exists _, stored_bind (decode_float32 ?v ?old) _ = _ =>
      match goal with
      | H : is_float32 (Some v) _ |- _ =>
          destruct (is_float32_stores v _ old H) as [? ->]
      end
  | |- exists _, stored_bind (decode_strings ?v ?old) _ = _ =>
      match goal with
      | H : is_strings (Some v) _ |- _ =>
          rewrite (is_strings_value v _ old H)
      end
  end;
  eexists; reflexivity.

(** Splits the members of a table and looks up what the member at hand
    stands for. *)
Ltac each_field Hfind Hvalue :=
  apply find_field_In in Hfind; cbn in Hfind;
  repeat (destruct Hfind as [<-|Hfind];
          [cbn [field_name lens_field] in Hvalue; rewrite Hvalue in * |]);
  [.. | destruct Hfind].

Lemma Machine_stores (members : list (string * jdoc)) (machine old : Machine) :
  unrepeated Machine_fields members = true ->
  is_string (field_value Machine_fields "GpuDisplayName" members)
    (GpuDisplayName machine) ->
  exists a, store_members Machine_fields members old = Stored a.
Proof.
  intros Hunrepeated Hname. unfold store_members. rewrite Hunrepeated.
  apply bool_decide_eq_true in Hunrepeated.
  apply store_each_stores. intros key v f Hin Hfind t.
  pose proof (field_value_member _ _ _ _ _ Hunrepeated Hin Hfind) as Hvalue.
  each_field Hfind Hvalue. store_member.
Qed.

Lemma Machine_stored (members : list (string * jdoc)) (machine : Machine) :
  unrepeated Machine_fields members = true ->
  is_string (field_value Machine_fields "GpuDisplayName" members)
    (GpuDisplayName machine) ->
  store_members Machine_fields members Machine_zero = Stored machine.
Proof.
  intros Hunrepeated Hname.
  destruct (Machine_stores members machine Machine_zero Hunrepeated Hname)
    as [a Ha].
  rewrite Ha. f_equal. revert Ha. unfold store_members. rewrite Hunrepeated.
  apply bool_decide_eq_true in Hunrepeated. intros Ha.
  pose proof (store_each_field Machine_fields "GpuDisplayName" GpuDisplayName
                (fun x _ => {| GpuDisplayName := x |}) decode_string
                ltac:(own_field) ltac:(reflexivity) ltac:(frame_field)
                members Machine_zero a Hunrepeated Ha) as Hfield.
  apply (is_string_decoded _ _ _ Hname) in Hfield.
  destruct a, machine. cbn in Hfield. by subst.
Qed.

Lemma is_Machine_stores (v : jdoc) (m old : option Machine) :
  is_Machine (Some v) m -> exists a, decode_Machine v old = Stored a.
Proof.
  destruct v; cbn; try done; eauto.
  intros (Hunrepeated & machine & -> & Hname).
  destruct (Machine_stores members machine (default Machine_zero old)
              Hunrepeated Hname) as [a ->].
  cbn. eauto.
Qed.

Lemma is_Machine_decoded (o : option jdoc) (m x : option Machine) :
  is_Machine o m ->
  match o with
  | None => x = None
  | Some v => decode_Machine v None = Stored x
  end ->
  x = m.
Proof.
  destruct o as [[]|]; cbn; try done; try congruence.
  intros (Hunrepeated & machine & -> & Hname).
  rewrite (Machine_stored members machine Hunrepeated Hname). cbn. congruence.
Qed.

(** A pod object stores field by field. *)
Ltac store_pod_member :=
  first
    [ store_member
    | cbn [field_store lens_field];
      match goal with
      | |- exists _, stored_bind (decode_Machine ?v ?old) _ = _ =>
          match goal with
          | H : is_Machine (Some v) _ |- _ =>
              destruct (is_Machine_stores v _ old H) as [? ->]
          end
      end;
      eexists; reflexivity ].

Lemma pod_object_stores (members : list (string * jdoc)) (pod old : Pod.t) :
  pod_object (DObject members) pod ->
  exists a, store_members Pod_fields members old = Stored a.
Proof.
  cbn. intros (Hunrepeated & HId & HContainerDiskInGb & HCostPerHr & HDesiredStatus & HDockerArgs & HEnv & HGpuCount & HImageName & HMemoryInGb & HName & HPodType & HPorts & HVcpuCount & HVolumeInGb & HVolumeMountPath & HMachine).
  unfold store_members. rewrite Hunrepeated.
  apply bool_decide_eq_true in Hunrepeated.
  apply store_each_stores. intros key v f Hin Hfind t.
  pose proof (field_value_member _ _ _ _ _ Hunrepeated Hin Hfind) as Hvalue.
  each_field Hfind Hvalue; store_pod_member.
Qed.

(** A well-formed pod object decodes to the pod it stands for. *)
Lemma pod_object_stored (members : list (string * jdoc)) (pod : Pod.t) :
  pod_object (DObject members) pod ->
  store_members Pod_fields members Pod_zero = Stored pod.
Proof.
  intros Hpod.
  destruct (pod_object_stores members pod Pod_zero Hpod) as [a Ha].
  rewrite Ha. f_equal. revert Ha Hpod. cbn.
  intros Ha (Hunrepeated & HId & HContainerDiskInGb & HCostPerHr & HDesiredStatus & HDockerArgs & HEnv & HGpuCount & HImageName & HMemoryInGb & HName & HPodType & HPorts & HVcpuCount & HVolumeInGb & HVolumeMountPath & HMachine).
  revert Ha. unfold store_members. rewrite Hunrepeated.
  apply bool_decide_eq_true in Hunrepeated. intros Ha.
  pose proof (store_each_field Pod_fields "Id" Pod.Id Pod_set_Id decode_string
                ltac:(own_field) ltac:(reflexivity) ltac:(frame_field)
                members Pod_zero a Hunrepeated Ha) as HId'.
  apply (is_string_decoded _ _ _ HId) in HId'.
  pose proof (store_each_field Pod_fields "ContainerDiskInGb" Pod.ContainerDiskInGb Pod_set_ContainerDiskInGb decode_int
                ltac:(own_field) ltac:(reflexivity) ltac:(frame_field)
                members Pod_zero a Hunrepeated Ha) as HContainerDiskInGb'.
  apply (is_int_decoded _ _ _ HContainerDiskInGb) in HContainerDiskInGb'.
  pose proof (store_each_field Pod_fields "CostPerHr" Pod.CostPerHr Pod_set_CostPerHr decode_float32
                ltac:(own_field) ltac:(reflexivity) ltac:(frame_field)
                members Pod_zero a Hunrepeated Ha) as HCostPerHr'.
  apply (is_float32_decoded _ _ _ HCostPerHr) in HCostPerHr'.
  pose proof (store_each_field Pod_fields "DesiredStatus" Pod.DesiredStatus Pod_set_DesiredStatus decode_string
                ltac:(own_field) ltac:(reflexivity) ltac:(frame_field)
                members Pod_zero a Hunrepeated Ha) as HDesiredStatus'.
  apply (is_string_decoded _ _ _ HDesiredStatus) in HDesiredStatus'.
  pose proof (store_each_field Pod_fields "DockerArgs" Pod.DockerArgs Pod_set_DockerArgs decode_string
                ltac:(own_field) ltac:(reflexivity) ltac:(frame_field)
                members Pod_zero a Hunrepeated Ha) as HDockerArgs'.
  apply (is_string_decoded _ _ _ HDockerArgs) in HDockerArgs'.
  pose proof (store_each_field Pod_fields "Env" Pod.Env Pod_set_Env decode_strings
                ltac:(own_field) ltac:(reflexivity) ltac:(frame_field)
                members Pod_zero a Hunrepeated Ha) as HEnv'.
  apply (is_strings_decoded _ _ _ HEnv) in HEnv'.
  pose proof (store_each_field Pod_fields "GpuCount" Pod.GpuCount Pod_set_GpuCount decode_int
                ltac:(own_field) ltac:(reflexivity) ltac:(frame_field)
                members Pod_zero a Hunrepeated Ha) as HGpuCount'.
  apply (is_int_decoded _ _ _ HGpuCount) in HGpuCount'.
  pose proof (store_each_field Pod_fields "ImageName" Pod.ImageName Pod_set_ImageName decode_string
                ltac:(own_field) ltac:(reflexivity) ltac:(frame_field)
                members Pod_zero a Hunrepeated Ha) as HImageName'.
  apply (is_string_decoded _ _ _ HImageName) in HImageName'.
  pose proof (store_each_field Pod_fields "MemoryInGb" Pod.MemoryInGb Pod_set_MemoryInGb decode_int
                ltac:(own_field) ltac:(reflexivity) ltac:(frame_field)
                members Pod_zero a Hunrepeated Ha) as HMemoryInGb'.
  apply (is_int_decoded _ _ _ HMemoryInGb) in HMemoryInGb'.
  pose proof (store_each_field Pod_fields "Name" Pod.Name Pod_set_Name decode_string
                ltac:(own_field) ltac:(reflexivity) ltac:(frame_field)
                members Pod_zero a Hunrepeated Ha) as HName'.
  apply (is_string_decoded _ _ _ HName) in HName'.
  pose proof (store_each_field Pod_fields "PodType" Pod.PodType Pod_set_PodType decode_string
                ltac:(own_field) ltac:(reflexivity) ltac:(frame_field)
                members Pod_zero a Hunrepeated Ha) as HPodType'.
  apply (is_string_decoded _ _ _ HPodType) in HPodType'.
  pose proof (store_each_field Pod_fields "Ports" Pod.Ports Pod_set_Ports decode_string
                ltac:(own_field) ltac:(reflexivity) ltac:(frame_field)
                members Pod_zero a Hunrepeated Ha) as HPorts'.
  apply (is_string_decoded _ _ _ HPorts) in HPorts'.
  pose proof (store_each_field Pod_fields "VcpuCount" Pod.VcpuCount Pod_set_VcpuCount decode_int
                ltac:(own_field) ltac:(reflexivity) ltac:(frame_field)
                members Pod_zero a Hunrepeated Ha) as HVcpuCount'.
  apply (is_int_decoded _ _ _ HVcpuCount) in HVcpuCount'.
  pose proof (store_each_field Pod_fields "VolumeInGb" Pod.VolumeInGb Pod_set_VolumeInGb decode_int
                ltac:(own_field) ltac:(reflexivity) ltac:(frame_field)
                members Pod_zero a Hunrepeated Ha) as HVolumeInGb'.
  apply (is_int_decoded _ _ _ HVolumeInGb) in HVolumeInGb'.
  pose proof (store_each_field Pod_fields "VolumeMountPath" Pod.VolumeMountPath Pod_set_VolumeMountPath decode_string
                ltac:(own_field) ltac:(reflexivity) ltac:(frame_field)
                members Pod_zero a Hunrepeated Ha) as HVolumeMountPath'.
  apply (is_string_decoded _ _ _ HVolumeMountPath) in HVolumeMountPath'.
  pose proof (store_each_field Pod_fields "Machine" Pod.Machine Pod_set_Machine decode_Machine
                ltac:(own_field) ltac:(reflexivity) ltac:(frame_field)
                members Pod_zero a Hunrepeated Ha) as HMachine'.
  apply (is_Machine_decoded _ _ _ HMachine) in HMachine'.
  destruct a, pod. cbn in *. by subst.
Qed.

Lemma pod_object_decoded (item : jdoc) (pod : Pod.t) :
  pod_object item pod -> decode_Pod item None = Stored (Some pod).
Proof.
  destruct item; try done. intros Hpod.
  unfold decode_Pod, decode_pointer. cbn [default from_option Datatypes.id].
  by rewrite (pod_object_stored members pod Hpod).
Qed.

Lemma pod_objects_decoded (items : list jdoc) (pods : list Pod.t) :
  Forall2 pod_object items pods ->
  decode_items (fun item => decode_Pod item None) items = Stored (Some <$> pods).
Proof.
  induction 1 as [|item pod items pods Hpod _ IH]; [done|].
  cbn [decode_items]. rewrite (pod_object_decoded item pod Hpod).
  cbn [stored_bind]. by rewrite IH.
Qed.

(** *** The envelope *)

Section Envelope.

Context (items : list jdoc) (pods : list Pod.t).
Hypothesis Hitems : Forall2 pod_object items pods.

Lemma Pods_decoded (old : option (list (option Pod.t))) :
  decode_Pods (DArray items) old = Stored (Some (Some <$> pods)).
Proof. cbn. by rewrite (pod_objects_decoded items pods Hitems). Qed.

Context (myself : list (string * jdoc)).
Hypothesis Hmyself : unrepeated MySelfData_fields myself = true.
Hypothesis Hpods : field_value MySelfData_fields "Pods" myself = Some (DArray items).

Lemma MySelfData_stores (old : MySelfData) :
  exists a, store_members MySelfData_fields myself old = Stored a.
Proof.
  unfold store_members. rewrite Hmyself.
  pose proof Hmyself as Hnodup. apply bool_decide_eq_true in Hnodup.
  apply store_each_stores. intros key v f Hin Hfind t.
  pose proof (field_value_member _ _ _ _ _ Hnodup Hin Hfind) as Hvalue.
  each_field Hfind Hvalue. injection Hpods as ->.
  cbn [field_store lens_field]. rewrite Pods_decoded. eexists; reflexivity.
Qed.

Lemma MySelfData_stored :
  store_members MySelfData_fields myself {| Pods := None |}
    = Stored {| Pods := Some (Some <$> pods) |}.
Proof.
  destruct (MySelfData_stores {| Pods := None |}) as [a Ha].
  rewrite Ha. f_equal. revert Ha. unfold store_members. rewrite Hmyself.
  pose proof Hmyself as Hnodup. apply bool_decide_eq_true in Hnodup. intros Ha.
  pose proof (store_each_field MySelfData_fields "Pods" Pods
                (fun x _ => {| Pods := x |}) decode_Pods
                ltac:(own_field) ltac:(reflexivity) ltac:(frame_field)
                myself _ a Hnodup Ha) as Hfield.
  rewrite Hpods, Pods_decoded in Hfield. destruct a. cbn in Hfield. congruence.
Qed.

Context (data : list (string * jdoc)).
Hypothesis Hdata : unrepeated PodData_fields data = true.
Hypothesis Hself : field_value PodData_fields "Myself" data = Some (DObject myself).

Lemma PodData_stores (old : PodData) :
  exists a, store_members PodData_fields data old = Stored a.
Proof.
  unfold store_members. rewrite Hdata.
  pose proof Hdata as Hnodup. apply bool_decide_eq_true in Hnodup.
  apply store_each_stores. intros key v f Hin Hfind t.
  pose proof (field_value_member _ _ _ _ _ Hnodup Hin Hfind) as Hvalue.
  each_field Hfind Hvalue. injection Hself as ->.
  cbn [field_store lens_field decode_pointer].
  destruct (MySelfData_stores (default {| Pods := None |} (Myself t))) as [a ->].
  cbn. eexists; reflexivity.
Qed.

Lemma PodData_stored :
  store_members PodData_fields data {| Myself := None |}
    = Stored {| Myself := Some {| Pods := Some (Some <$> pods) |} |}.
Proof.
  destruct (PodData_stores {| Myself := None |}) as [a Ha].
  rewrite Ha. f_equal. revert Ha. unfold store_members. rewrite Hdata.
  pose proof Hdata as Hnodup. apply bool_decide_eq_true in Hnodup. intros Ha.
  pose proof (store_each_field PodData_fields "Myself" Myself
                (fun x _ => {| Myself := x |})
                (decode_pointer MySelfData_fields {| Pods := None |} "api.MySelfData")
                ltac:(own_field) ltac:(reflexivity) ltac:(frame_field)
                data _ a Hnodup Ha) as Hfield.
  rewrite Hself in Hfield. cbn in Hfield. rewrite MySelfData_stored in Hfield.
  destruct a. cbn in Hfield. congruence.
Qed.

Context (top : list (string * jdoc)).
Hypothesis Htop : unrepeated PodOut_fields top = true.
Hypothesis Herrors :
  field_value PodOut_fields "errors" top = None
  \/ field_value PodOut_fields "errors" top = Some DNull
  \/ field_value PodOut_fields "errors" top = Some (DArray []).
Hypothesis Hpayload : field_value PodOut_fields "data" top = Some (DObject data).

Lemma PodOut_stored :
  store_members PodOut_fields top {| Data := None; Errors := [] |}
    = Stored {| Data := Some {| Myself := Some {| Pods := Some (Some <$> pods) |} |};
                Errors := [] |}.
Proof.
  unfold store_members. rewrite Htop.
  pose proof Htop as Hnodup. apply bool_decide_eq_true in Hnodup.
  destruct (store_each_stores PodOut_fields top)
    with (t := {| Data := None; Errors := [] |}) as [a Ha].
  { intros key v f Hin Hfind t.
    pose proof (field_value_member _ _ _ _ _ Hnodup Hin Hfind) as Hvalue.
    each_field Hfind Hvalue.
    - injection Hpayload as ->. cbn [field_store lens_field decode_pointer].
      destruct (PodData_stores (default {| Myself := None |} (Data t))) as [b ->].
      cbn. eexists; reflexivity.
    - cbn [field_store lens_field].
      destruct Herrors as [[=]|[[= ->]|[= ->]]]; cbn; eexists; reflexivity. }
  rewrite Ha. f_equal.
  pose proof (store_each_field PodOut_fields "data" Data
                (fun x (out : PodOut) => {| Data := x; Errors := Errors out |})
                (decode_pointer PodData_fields {| Myself := None |} "api.PodData")
                ltac:(own_field) ltac:(reflexivity) ltac:(frame_field)
                top _ a Hnodup Ha) as Hfield.
  pose proof (store_each_field PodOut_fields "errors" Errors
                (fun x (out : PodOut) => {| Data := Data out; Errors := x |})
                decode_Errors
                ltac:(own_field) ltac:(reflexivity) ltac:(frame_field)
                top _ a Hnodup Ha) as Hfield'.
  rewrite Hpayload in Hfield. cbn in Hfield. rewrite PodData_stored in Hfield.
  destruct a as [d e]. cbn in Hfield, Hfield'.
  assert (e = []) as ->
    by (destruct Herrors as [Hnone|[Hnull|Hempty]];
        [rewrite Hnone in Hfield' | rewrite Hnull in Hfield'
        | rewrite Hempty in Hfield']; cbn in Hfield'; congruence).
  congruence.
Qed.

End Envelope.

(** An envelope without errors, with well-formed pod objects under
    [data.myself.pods], decodes to the typed pods the objects stand for. *)
Lemma envelope_decoded (doc : jdoc) (items : list jdoc) (pods : list Pod.t) :
  envelope_with_pods doc items ->
  Forall2 pod_object items pods ->
  decode_PodOut doc
    = Stored {| Data := Some {| Myself := Some {| Pods := Some (Some <$> pods) |} |};
                Errors := [] |}.
Proof.
  intros (top & data & myself & -> & Htop & Herrors & Hdata & Hunrepeated
          & Hmyself & Hunrepeated' & Hpods) Hitems.
  by apply (PodOut_stored items pods Hitems myself Hunrepeated' Hpods
              data Hunrepeated Hmyself top Htop Herrors Hdata).
Qed.

(** C8. On a status-200 response whose body is an envelope without errors
    and with a list of N well-formed pod objects under [data.myself.pods],
    [GetPods] succeeds and returns exactly N typed pods: the pods the
    objects stand for, in order, each field holding the value of its
    member (the empty string, zero or nil when the member is missing or
    [null]), the machine and its GPU name included. *)
Theorem GetPods_returns_decoded_pods
    (Query : Input -> Response + error)
    (scan : string -> jdoc + error)
    (Unmarshal_PodOut : string -> PodOut + error)
    (raw : string) (doc : jdoc) (items : list jdoc) (pods : list Pod.t) :
  follows_encoding_json scan Unmarshal_PodOut ->
  Query GetPods_input = inl {| StatusCode := 200; Body := readable raw |} ->
  scan raw = inl doc ->
  envelope_with_pods doc items ->
  Forall2 pod_object items pods ->
  GetPods Query Unmarshal_PodOut = Return exitSuccess (Some (Some <$> pods)) None
  /\ length (Some <$> pods) = length items.
Proof.
  intros Hjson HQ Hscan Henvelope Hitems.
  pose proof (Hjson raw) as Hdecode.
  rewrite Hscan, (envelope_decoded doc items pods Henvelope Hitems) in Hdecode.
  split.
  - unfold GetPods. rewrite HQ.
    cbn [StatusCode Body io_ReadAll readable contents read_err].
    by rewrite status_200, Hdecode.
  - rewrite length_fmap. symmetry. by eapply Forall2_length.
Qed.

Lemma double_follows_encoding_json (scan : string -> jdoc + error) :
  follows_encoding_json scan (Listing.Unmarshal_PodOut scan).
Proof.
  intros raw. unfold Listing.Unmarshal_PodOut.
  destruct (scan raw) as [doc|e]; [|reflexivity].
  destruct (decode_PodOut doc); eauto.
Qed.

(** C8 on a listing of two pods: one with every member the query asks
    for, one with an id, a name and a [null] machine. *)
Lemma GetPods_returns_decoded_pods_witness :
  GetPods (respond 200 (readable Listing.body))
    (Listing.Unmarshal_PodOut Listing.scan)
    = Return exitSuccess
        (Some [Some Listing.first_pod; Some Listing.second_pod]) None.
Proof.
  apply (GetPods_returns_decoded_pods
           (respond 200 (readable Listing.body)) Listing.scan
           (Listing.Unmarshal_PodOut Listing.scan)
           Listing.body Listing.document
           [Listing.first_object; Listing.second_object]
           [Listing.first_pod; Listing.second_pod]).
  - apply double_follows_encoding_json.
  - reflexivity.
  - vm_compute. reflexivity.
  - eexists _, _, _. split; [reflexivity|].
    split; [vm_compute; reflexivity|].
    split; [left; vm_compute; reflexivity|].
    split; [vm_compute; reflexivity|].
    split; [vm_compute; reflexivity|].
    split; [vm_compute; reflexivity|].
    split; vm_compute; reflexivity.
  - constructor; [|constructor; [|constructor]]; vm_compute.
    + repeat match goal with |- _ /\ _ => split end; try reflexivity.
      * constructor; [reflexivity | constructor].
      * eexists. split; reflexivity.
    + repeat match goal with |- _ /\ _ => split end; reflexivity.
Defined.

(** ** Malformed GraphQL errors *)

(** The unguarded assertion [firstErr["message"].(string)] fails unless the
    first entry is an object with a string under [message]. *)
Lemma first_error_message_panics (first : json) :
  (forall fields msg, first = JObject fields ->
                      fields !! "message" <> Some (JString msg)) ->
  exists dynamic,
    first_error_message first = inr (interfaceConversion dynamic "string").
Proof.
  intros Hmalformed. unfold first_error_message.
  destruct (as_string _) as [msg|] eqn:Hstring; [|eauto].
  exfalso.
  destruct first as [| | | | |fields]; try discriminate Hstring.
  unfold map_index in Hstring. cbn [as_map from_option Datatypes.id] in Hstring.
  destruct (fields !! "message") as [[]|] eqn:Hlookup; try discriminate Hstring.
  by eapply Hmalformed.
Qed.

(** C10. On a status-200 response whose errors list is non-empty and whose
    first entry is not an object with a string [message], the five
    mutations do not return: the assertion to [string] panics. *)
Theorem malformed_first_error_panics
    (Query : Input -> Response + error)
    (Unmarshal_map : string -> gmap string json + error)
    (raw : string) (data : gmap string json) (first : json) (rest : list json)
    (podInput : CreatePodInput.t) (id : string) (bidPerGpu : float32) :
  (forall input, Query input = inl {| StatusCode := 200; Body := readable raw |}) ->
  Unmarshal_map raw = inl data ->
  data !! "errors" = Some (JArray (first :: rest)) ->
  (forall fields msg, first = JObject fields ->
                      fields !! "message" <> Some (JString msg)) ->
  exists dynamic,
    (CreatePod Query Unmarshal_map (Some podInput)).2
      = Panic (interfaceConversion dynamic "string")
    /\ StopPod Query Unmarshal_map id
      = Panic (interfaceConversion dynamic "string")
    /\ RemovePod Query Unmarshal_map id
      = Panic (interfaceConversion dynamic "string")
    /\ StartOnDemandPod Query Unmarshal_map id
      = Panic (interfaceConversion dynamic "string")
    /\ StartSpotPod Query Unmarshal_map id bidPerGpu
      = Panic (interfaceConversion dynamic "string").
Proof.
  intros HQ Hmap Hlist Hmalformed.
  destruct (first_error_message_panics first Hmalformed) as [dynamic Hpanic].
  exists dynamic. repeat split.
  - enter_CreatePod podInput; by step_response.
  - unfold StopPod. by step_response.
  - unfold RemovePod. by step_response.
  - unfold StartOnDemandPod. by step_response.
  - unfold StartSpotPod. by step_response.
Qed.

(** C10 on the errors lists [[null]], [["boom"]] and [[{"message": 5}]]. *)
Lemma malformed_first_error_panics_witness :
  StopPod (respond 200 (readable body_null_error)) Samples.Unmarshal_map "p1"
    = Panic (interfaceConversion None "string")
  /\ RemovePod (respond 200 (readable body_string_error)) Samples.Unmarshal_map "p1"
    = Panic (interfaceConversion None "string")
  /\ (CreatePod (respond 200 (readable body_number_message)) Samples.Unmarshal_map
        (Some (unnamed "foo/bar:latest"))).2
    = Panic (interfaceConversion (Some "float64") "string").
Proof.
  destruct (malformed_first_error_panics
              (respond 200 (readable body_null_error)) Samples.Unmarshal_map
              body_null_error {[ "errors" := JArray [JNull] ]} JNull []
              (unnamed "foo/bar:latest") "p1" zero)
    as (d1 & _ & HStop & _);
    [reflexivity | reflexivity | vm_compute; reflexivity | discriminate |].
  destruct (malformed_first_error_panics
              (respond 200 (readable body_string_error)) Samples.Unmarshal_map
              body_string_error {[ "errors" := JArray [JString "boom"] ]}
              (JString "boom") [] (unnamed "foo/bar:latest") "p1" zero)
    as (d2 & _ & _ & HRemove & _);
    [reflexivity | reflexivity | vm_compute; reflexivity | discriminate |].
  destruct (malformed_first_error_panics
              (respond 200 (readable body_number_message)) Samples.Unmarshal_map
              body_number_message
              {[ "errors" := JArray [JObject {[ "message" := JNumber five ]}] ]}
              (JObject {[ "message" := JNumber five ]}) []
              (unnamed "foo/bar:latest") "p1" zero)
    as (d3 & HCreate & _);
    [reflexivity | reflexivity | vm_compute; reflexivity
    | intros fields msg [= <-]; vm_compute; discriminate |].
  assert (H1 : d1 = None) by (vm_compute in HStop; congruence).
  assert (H2 : d2 = None) by (vm_compute in HRemove; congruence).
  assert (H3 : d3 = Some "float64") by (vm_compute in HCreate; congruence).
  subst. exact (conj HStop (conj HRemove HCreate)).
Defined.

(** * Further properties of the operations *)

(** ** Tools *)

Lemma CreatePod_named_struct
    (Query : Input -> Response + error)
    (Unmarshal_map : string -> gmap string json + error)
    (p : CreatePodInput.t) :
  (CreatePod Query Unmarshal_map (Some p)).1 = Some (CreatePod_named p).
Proof. apply CreatePod_struct_after. Qed.

(** Unfolds [CreatePod] with the struct it sends written [CreatePod_named]. *)
Ltac enter_CreatePod_named p :=
  unfold CreatePod, CreatePod_named;
  destruct (String.eqb (CreatePodInput.Name p) "") eqn:?;
  [ destruct (Split_colon_head (CreatePodInput.ImageName p)) as [? ->] | ];
  cbn [fst snd].

Lemma as_map_data (data gqldata : gmap string json) :
  as_map (map_index data "data") = Some gqldata
  <-> data !! "data" = Some (JObject gqldata).
Proof.
  unfold map_index. destruct (data !! "data") as [[]|]; cbn; naive_solver.
Qed.

Lemma as_map_payload (gqldata pod : gmap string json) (key : string) :
  as_map (map_index gqldata key) = Some pod
  <-> gqldata !! key = Some (JObject pod).
Proof.
  unfold map_index. destruct (gqldata !! key) as [[]|]; cbn; naive_solver.
Qed.

Lemma has_errors_true (data : gmap string json) :
  has_errors data = true
  <-> exists first rest, data !! "errors" = Some (JArray (first :: rest)).
Proof.
  unfold has_errors, map_index. split.
  - destruct (data !! "errors") as [[| | | |[|first rest]|]|]; cbn;
      try discriminate; eauto.
  - by intros (first & rest & ->).
Qed.

(** ** Failures of the collaborators *)

(** X1. A transport failure is handed to the caller as it is, with nil
    results, by each of the six operations; the decoders are not asked. *)
Theorem transport_failure_is_returned
    (Query : Input -> Response + error)
    (Unmarshal_PodOut : string -> PodOut + error)
    (Unmarshal_map : string -> gmap string json + error)
    (e : error) (podInput : CreatePodInput.t) (id : string) (bidPerGpu : float32) :
  (Query GetPods_input = inr e ->
     GetPods Query Unmarshal_PodOut = Return exitQueryErr None (Some e))
  /\ (Query (CreatePod_input (CreatePod_named podInput)) = inr e ->
     (CreatePod Query Unmarshal_map (Some podInput)).2
       = Return exitQueryErr None (Some e))
  /\ (Query (StopPod_input id) = inr e ->
     StopPod Query Unmarshal_map id = Return exitQueryErr None (Some e))
  /\ (Query (RemovePod_input id) = inr e ->
     RemovePod Query Unmarshal_map id = Return exitQueryErr false (Some e))
  /\ (Query (StartOnDemandPod_input id) = inr e ->
     StartOnDemandPod Query Unmarshal_map id = Return exitQueryErr None (Some e))
  /\ (Query (StartSpotPod_input id bidPerGpu) = inr e ->
     StartSpotPod Query Unmarshal_map id bidPerGpu
       = Return exitQueryErr None (Some e)).
Proof.
  repeat split; intros HQ.
  - unfold GetPods. by rewrite HQ.
  - revert HQ. enter_CreatePod_named podInput; by intros ->.
  - unfold StopPod. by rewrite HQ.
  - unfold RemovePod. by rewrite HQ.
  - unfold StartOnDemandPod. by rewrite HQ.
  - unfold StartSpotPod. by rewrite HQ.
Qed.

(** X1 against a transport that refuses every connection. *)
Lemma transport_failure_is_returned_witness :
  GetPods MoreSamples.unreachable MoreSamples.Unmarshal_PodOut
    = Return exitQueryErr None (Some MoreSamples.refused)
  /\ (CreatePod MoreSamples.unreachable MoreSamples.Unmarshal_map
        (Some (unnamed "foo/bar:latest"))).2
    = Return exitQueryErr None (Some MoreSamples.refused)
  /\ RemovePod MoreSamples.unreachable MoreSamples.Unmarshal_map "p1"
    = Return exitQueryErr false (Some MoreSamples.refused).
Proof.
  destruct (transport_failure_is_returned
              MoreSamples.unreachable MoreSamples.Unmarshal_PodOut
              MoreSamples.Unmarshal_map MoreSamples.refused
              (unnamed "foo/bar:latest") "p1" zero)
    as (HGet & HCreate & _ & HRemove & _).
  exact (conj (HGet eq_refl) (conj (HCreate eq_refl) (HRemove eq_refl))).
Defined.

(** X2. On status 200, a body whose read fails makes each operation
    return the read error as it is. *)
Theorem read_failure_is_returned
    (Query : Input -> Response + error)
    (Unmarshal_PodOut : string -> PodOut + error)
    (Unmarshal_map : string -> gmap string json + error)
    (body : ReadCloser) (e : error)
    (podInput : CreatePodInput.t) (id : string) (bidPerGpu : float32) :
  read_err body = Some e ->
  (forall input, Query input = inl {| StatusCode := 200; Body := body |}) ->
  GetPods Query Unmarshal_PodOut = Return exitReadAll None (Some e)
  /\ (CreatePod Query Unmarshal_map (Some podInput)).2
    = Return exitReadAll None (Some e)
  /\ StopPod Query Unmarshal_map id = Return exitReadAll None (Some e)
  /\ RemovePod Query Unmarshal_map id = Return exitReadAll false (Some e)
  /\ StartOnDemandPod Query Unmarshal_map id = Return exitReadAll None (Some e)
  /\ StartSpotPod Query Unmarshal_map id bidPerGpu
    = Return exitReadAll None (Some e).
Proof.
  intros Hread HQ. repeat split.
  - unfold GetPods. by step_response.
  - enter_CreatePod podInput; by step_response.
  - unfold StopPod. by step_response.
  - unfold RemovePod. by step_response.
  - unfold StartOnDemandPod. by step_response.
  - unfold StartSpotPod. by step_response.
Qed.

(** X2 on a status-200 response whose body breaks off. *)
Lemma read_failure_is_returned_witness :
  GetPods (respond 200 broken_body) MoreSamples.Unmarshal_PodOut
    = Return exitReadAll None (Some unexpectedEOF)
  /\ StopPod (respond 200 broken_body) MoreSamples.Unmarshal_map "p1"
    = Return exitReadAll None (Some unexpectedEOF).
Proof.
  destruct (read_failure_is_returned
              (respond 200 broken_body) MoreSamples.Unmarshal_PodOut
              MoreSamples.Unmarshal_map broken_body unexpectedEOF
              (unnamed "foo/bar:latest") "p1" zero eq_refl)
    as (HGet & _ & HStop & _); [reflexivity|].
  exact (conj HGet HStop).
Defined.

(** X3. On status 200 with a readable body that the decoder rejects, each
    operation returns the decoder's error as it is. *)
Theorem decode_failure_is_returned
    (Query : Input -> Response + error)
    (Unmarshal_PodOut : string -> PodOut + error)
    (Unmarshal_map : string -> gmap string json + error)
    (raw : string) (e e' : error)
    (podInput : CreatePodInput.t) (id : string) (bidPerGpu : float32) :
  (forall input, Query input = inl {| StatusCode := 200; Body := readable raw |}) ->
  Unmarshal_PodOut raw = inr e ->
  Unmarshal_map raw = inr e' ->
  GetPods Query Unmarshal_PodOut = Return exitUnmarshal None (Some e)
  /\ (CreatePod Query Unmarshal_map (Some podInput)).2
    = Return exitUnmarshal None (Some e')
  /\ StopPod Query Unmarshal_map id = Return exitUnmarshal None (Some e')
  /\ RemovePod Query Unmarshal_map id = Return exitUnmarshal false (Some e')
  /\ StartOnDemandPod Query Unmarshal_map id = Return exitUnmarshal None (Some e')
  /\ StartSpotPod Query Unmarshal_map id bidPerGpu
    = Return exitUnmarshal None (Some e').
Proof.
  intros HQ HPodOut Hmap. repeat split.
  - unfold GetPods. by step_response.
  - enter_CreatePod podInput; by step_response.
  - unfold StopPod. by step_response.
  - unfold RemovePod. by step_response.
  - unfold StartOnDemandPod. by step_response.
  - unfold StartSpotPod. by step_response.
Qed.

(** X3 on a body that is not JSON. *)
Lemma decode_failure_is_returned_witness :
  GetPods (respond 200 (readable MoreSamples.body_garbage)) MoreSamples.Unmarshal_PodOut
    = Return exitUnmarshal None (Some MoreSamples.syntaxError)
  /\ RemovePod (respond 200 (readable MoreSamples.body_garbage))
       MoreSamples.Unmarshal_map "p1"
    = Return exitUnmarshal false (Some MoreSamples.syntaxError).
Proof.
  destruct (decode_failure_is_returned
              (respond 200 (readable MoreSamples.body_garbage))
              MoreSamples.Unmarshal_PodOut MoreSamples.Unmarshal_map
              MoreSamples.body_garbage MoreSamples.syntaxError MoreSamples.syntaxError
              (unnamed "foo/bar:latest") "p1" zero)
    as (HGet & _ & _ & HRemove & _); [reflexivity | reflexivity | reflexivity |].
  exact (conj HGet HRemove).
Defined.

(** Follows a response known through [answered]. *)
Ltac step_answered H :=
  let res := fresh "res" in
  let HQ := fresh "HQ" in
  let Hstatus := fresh "Hstatus" in
  let Hread := fresh "Hread" in
  let Hdecode := fresh "Hdecode" in
  destruct H as (res & HQ & Hstatus & Hread & Hdecode);
  rewrite HQ, Hstatus, status_200, Hread, Hdecode.

(** Reads the checks an operation went through off its result. *)
Ltac invert_run :=
  repeat match goal with
         | |- context [match ?x with _ => _ end] => destruct x eqn:?
         end;
  try discriminate.

(** ** GraphQL errors and missing data *)

(** X4. A non-empty errors list wins over whatever [data] holds: on status
    200, with a first entry that has a message, each operation fails with
    that message even when the payload it asked for is there. *)
Theorem graphql_errors_override_data
    (Query : Input -> Response + error)
    (Unmarshal_PodOut : string -> PodOut + error)
    (Unmarshal_map : string -> gmap string json + error)
    (raw msg : string)
    (envelope : PodOut) (rest : list (option GraphQLError))
    (data fields : gmap string json) (rest' : list json)
    (podInput : CreatePodInput.t) (id : string) (bidPerGpu : float32) :
  Errors envelope = Some {| Message := msg |} :: rest ->
  data !! "errors" = Some (JArray (JObject fields :: rest')) ->
  fields !! "message" = Some (JString msg) ->
  (answered Query Unmarshal_PodOut GetPods_input raw envelope ->
     GetPods Query Unmarshal_PodOut
       = Return exitGraphQLErrors None (Some (errorString msg)))
  /\ (answered Query Unmarshal_map (CreatePod_input (CreatePod_named podInput)) raw data ->
     (CreatePod Query Unmarshal_map (Some podInput)).2
       = Return exitGraphQLErrors None (Some (errorString msg)))
  /\ (answered Query Unmarshal_map (StopPod_input id) raw data ->
     StopPod Query Unmarshal_map id
       = Return exitGraphQLErrors None (Some (errorString msg)))
  /\ (answered Query Unmarshal_map (RemovePod_input id) raw data ->
     RemovePod Query Unmarshal_map id
       = Return exitGraphQLErrors true (Some (errorString msg)))
  /\ (answered Query Unmarshal_map (StartOnDemandPod_input id) raw data ->
     StartOnDemandPod Query Unmarshal_map id
       = Return exitGraphQLErrors None (Some (errorString msg)))
  /\ (answered Query Unmarshal_map (StartSpotPod_input id bidPerGpu) raw data ->
     StartSpotPod Query Unmarshal_map id bidPerGpu
       = Return exitGraphQLErrors None (Some (errorString msg))).
Proof.
  intros Herrors Hlist Hmessage.
  assert (Hfirst : first_error_message (JObject fields) = inl msg).
  { unfold first_error_message, map_index. cbn [as_map from_option Datatypes.id].
    by rewrite Hmessage. }
  repeat split; intros Hanswer.
  - unfold GetPods. step_answered Hanswer. by rewrite Herrors.
  - revert Hanswer. enter_CreatePod_named podInput; intros Hanswer;
      step_answered Hanswer; by step_response.
  - unfold StopPod. step_answered Hanswer. by step_response.
  - unfold RemovePod. step_answered Hanswer. by step_response.
  - unfold StartOnDemandPod. step_answered Hanswer. by step_response.
  - unfold StartSpotPod. step_answered Hanswer. by step_response.
Qed.

(** X4 on an envelope that carries an error next to a complete payload. *)
Lemma graphql_errors_override_data_witness :
  StopPod (respond 200 (readable MoreSamples.body_error_with_data))
    MoreSamples.Unmarshal_map "p1"
    = Return exitGraphQLErrors None (Some (errorString "no capacity"))
  /\ RemovePod (respond 200 (readable MoreSamples.body_error_with_data))
       MoreSamples.Unmarshal_map "p1"
    = Return exitGraphQLErrors true (Some (errorString "no capacity"))
  /\ GetPods (respond 200 (readable MoreSamples.body_error_with_data))
       MoreSamples.Unmarshal_PodOut
    = Return exitGraphQLErrors None (Some (errorString "no capacity")).
Proof.
  destruct (graphql_errors_override_data
              (respond 200 (readable MoreSamples.body_error_with_data))
              MoreSamples.Unmarshal_PodOut MoreSamples.Unmarshal_map
              MoreSamples.body_error_with_data "no capacity"
              {| Data := Some {| Myself := None |};
                 Errors := [Some {| Message := "no capacity" |}] |} []
              (<[ "errors" := JArray [message "no capacity"] ]>
                 {[ "data" := MoreSamples.stop_and_terminate ]})
              {[ "message" := JString "no capacity" ]} []
              (unnamed "foo/bar:latest") "p1" zero)
    as (HGet & _ & HStop & HRemove & _);
    [reflexivity | vm_compute; reflexivity | vm_compute; reflexivity |].
  refine (conj (HStop _) (conj (HRemove _) (HGet _)));
    eexists; repeat split; reflexivity.
Defined.

(** X5. On status 200 without GraphQL errors, a [data] member that is
    missing, [null] or not an object makes each mutation fail with
    [data is nil:] followed by the raw body; [GetPods] fails the same way
    when [data], [data.myself] or [data.myself.pods] is missing or
    [null]. *)
Theorem missing_data_is_reported
    (Query : Input -> Response + error)
    (Unmarshal_PodOut : string -> PodOut + error)
    (Unmarshal_map : string -> gmap string json + error)
    (raw : string) (envelope : PodOut) (data : gmap string json)
    (podInput : CreatePodInput.t) (id : string) (bidPerGpu : float32) :
  Errors envelope = [] ->
  (Data envelope = None
   \/ (exists d, Data envelope = Some d /\ Myself d = None)
   \/ (exists d myself,
         Data envelope = Some d /\ Myself d = Some myself /\ Pods myself = None)) ->
  has_errors data = false ->
  (forall gqldata, data !! "data" <> Some (JObject gqldata)) ->
  let data_is_nil := Some (errorString ("data is nil: " +:+ raw)) in
  (answered Query Unmarshal_PodOut GetPods_input raw envelope ->
     GetPods Query Unmarshal_PodOut = Return exitDataNil None data_is_nil)
  /\ (answered Query Unmarshal_map (CreatePod_input (CreatePod_named podInput)) raw data ->
     (CreatePod Query Unmarshal_map (Some podInput)).2
       = Return exitDataNil None data_is_nil)
  /\ (answered Query Unmarshal_map (StopPod_input id) raw data ->
     StopPod Query Unmarshal_map id = Return exitDataNil None data_is_nil)
  /\ (answered Query Unmarshal_map (RemovePod_input id) raw data ->
     RemovePod Query Unmarshal_map id = Return exitDataNil false data_is_nil)
  /\ (answered Query Unmarshal_map (StartOnDemandPod_input id) raw data ->
     StartOnDemandPod Query Unmarshal_map id = Return exitDataNil None data_is_nil)
  /\ (answered Query Unmarshal_map (StartSpotPod_input id bidPerGpu) raw data ->
     StartSpotPod Query Unmarshal_map id bidPerGpu
       = Return exitDataNil None data_is_nil).
Proof.
  intros Herrors Hnil Hnone Hdata data_is_nil.
  assert (Hmap : as_map (map_index data "data") = None).
  { destruct (as_map (map_index data "data")) as [gqldata|] eqn:Hsome; [|done].
    apply as_map_data in Hsome. by apply Hdata in Hsome. }
  destruct (no_errors_cases data Hnone) as [Hslice|Hslice].
  all: repeat split; intros Hanswer.
  all: try (unfold GetPods; step_answered Hanswer; rewrite Herrors;
            destruct Hnil as [->|[(d & -> & ->)|(d & myself & -> & -> & ->)]];
            reflexivity).
  all: try (revert Hanswer; enter_CreatePod_named podInput; intros Hanswer).
  all: unfold StopPod, RemovePod, StartOnDemandPod, StartSpotPod.
  all: step_answered Hanswer; by rewrite Hslice, Hmap.
Qed.

(** X5 on the bodies [{"data": null}], [{}] and
    [{"data": {"myself": {"pods": null}}}]. *)
Lemma missing_data_is_reported_witness :
  StopPod (respond 200 (readable MoreSamples.body_null_data))
    MoreSamples.Unmarshal_map "p1"
    = Return exitDataNil None
        (Some (errorString ("data is nil: " +:+ MoreSamples.body_null_data)))
  /\ RemovePod (respond 200 (readable MoreSamples.body_empty))
       MoreSamples.Unmarshal_map "p1"
    = Return exitDataNil false (Some (errorString "data is nil: {}"))
  /\ GetPods (respond 200 (readable MoreSamples.body_null_pods))
       MoreSamples.Unmarshal_PodOut
    = Return exitDataNil None
        (Some (errorString ("data is nil: " +:+ MoreSamples.body_null_pods))).
Proof.
  destruct (missing_data_is_reported
              (respond 200 (readable MoreSamples.body_null_data))
              MoreSamples.Unmarshal_PodOut MoreSamples.Unmarshal_map
              MoreSamples.body_null_data
              {| Data := None; Errors := [] |} {[ "data" := JNull ]}
              (unnamed "foo/bar:latest") "p1" zero)
    as (_ & _ & HStop & _);
    [reflexivity | by left | vm_compute; reflexivity
    | intros gqldata; vm_compute; discriminate |].
  destruct (missing_data_is_reported
              (respond 200 (readable MoreSamples.body_empty))
              MoreSamples.Unmarshal_PodOut MoreSamples.Unmarshal_map
              MoreSamples.body_empty
              {| Data := None; Errors := [] |} ∅
              (unnamed "foo/bar:latest") "p1" zero)
    as (_ & _ & _ & HRemove & _);
    [reflexivity | by left | vm_compute; reflexivity
    | intros gqldata; vm_compute; discriminate |].
  destruct (missing_data_is_reported
              (respond 200 (readable MoreSamples.body_null_pods))
              MoreSamples.Unmarshal_PodOut MoreSamples.Unmarshal_map
              MoreSamples.body_null_pods
              {| Data := Some {| Myself := Some {| Pods := None |} |}; Errors := [] |}
              ∅ (unnamed "foo/bar:latest") "p1" zero)
    as (HGet & _);
    [reflexivity
    | right; right; by exists {| Myself := Some {| Pods := None |} |}, {| Pods := None |}
    | vm_compute; reflexivity
    | intros gqldata; vm_compute; discriminate |].
  refine (conj (HStop _) (conj (HRemove _) (HGet _)));
    eexists; repeat split; reflexivity.
Defined.

(** ** Returning without an error *)

Lemma status_is_200 (code : Z) : negb (code =? 200)%Z = false -> code = 200%Z.
Proof. intros H. apply negb_false_iff in H. by apply Z.eqb_eq. Qed.

Lemma no_errors_intro (data : gmap string json) :
  as_slice (map_index data "errors") = None
  \/ as_slice (map_index data "errors") = Some [] ->
  has_errors data = false.
Proof. unfold has_errors. by intros [->| ->]. Qed.

(** Collects, after [invert_run], what a run that reached the payload went
    through. *)
Ltac collect_success :=
  intros [= <- <-]; split; [reflexivity|];
  eexists _, _, _, _; split; [reflexivity|];
  repeat split;
  [ eexists; eauto using status_is_200
  | apply no_errors_intro; eauto
  | apply as_map_data; eassumption
  | apply as_map_payload; eassumption ].

(** Replays a run from the facts [collect_success] gathers. *)
Ltac replay_success :=
  intros (-> & pod & raw & data & gqldata & -> & Hanswer & Hnone & Hdata & Hkey);
  rewrite <- as_map_data in Hdata; rewrite <- as_map_payload in Hkey;
  step_answered Hanswer;
  destruct (no_errors_cases data Hnone) as [->| ->];
  by rewrite Hdata, Hkey.

(** X6. [CreatePod], [StopPod], [StartOnDemandPod] and [StartSpotPod]
    return a nil error exactly when the transport answered their request
    with status 200 and a readable body that decodes to an envelope without
    GraphQL errors whose [data] is an object binding the operation's key to
    an object; the value returned is that object, whatever its fields. *)
Theorem nil_error_means_payload
    (Query : Input -> Response + error)
    (Unmarshal_map : string -> gmap string json + error)
    (podInput : CreatePodInput.t) (id : string) (bidPerGpu : float32)
    (x : exit) (v : option (gmap string json)) :
  ((CreatePod Query Unmarshal_map (Some podInput)).2 = Return x v None
   <-> x = exitSuccess
       /\ exists pod raw data gqldata,
            v = Some pod
            /\ answered Query Unmarshal_map
                 (CreatePod_input (CreatePod_named podInput)) raw data
            /\ has_errors data = false
            /\ data !! "data" = Some (JObject gqldata)
            /\ gqldata !! "podFindAndDeployOnDemand" = Some (JObject pod))
  /\ (StopPod Query Unmarshal_map id = Return x v None
   <-> x = exitSuccess
       /\ exists podStop raw data gqldata,
            v = Some podStop
            /\ answered Query Unmarshal_map (StopPod_input id) raw data
            /\ has_errors data = false
            /\ data !! "data" = Some (JObject gqldata)
            /\ gqldata !! "podStop" = Some (JObject podStop))
  /\ (StartOnDemandPod Query Unmarshal_map id = Return x v None
   <-> x = exitSuccess
       /\ exists pod raw data gqldata,
            v = Some pod
            /\ answered Query Unmarshal_map (StartOnDemandPod_input id) raw data
            /\ has_errors data = false
            /\ data !! "data" = Some (JObject gqldata)
            /\ gqldata !! "podResume" = Some (JObject pod))
  /\ (StartSpotPod Query Unmarshal_map id bidPerGpu = Return x v None
   <-> x = exitSuccess
       /\ exists podBidResume raw data gqldata,
            v = Some podBidResume
            /\ answered Query Unmarshal_map (StartSpotPod_input id bidPerGpu) raw data
            /\ has_errors data = false
            /\ data !! "data" = Some (JObject gqldata)
            /\ gqldata !! "podBidResume" = Some (JObject podBidResume)).
Proof.
  split; [|split; [|split]]; split.
  - enter_CreatePod_named podInput; invert_run; collect_success.
  - enter_CreatePod_named podInput; replay_success.
  - unfold StopPod. invert_run; collect_success.
  - unfold StopPod. replay_success.
  - unfold StartOnDemandPod. invert_run; collect_success.
  - unfold StartOnDemandPod. replay_success.
  - unfold StartSpotPod. invert_run; collect_success.
  - unfold StartSpotPod. replay_success.
Qed.

(** X6 on answers that carry the payload, an empty object included. *)
Lemma nil_error_means_payload_witness :
  StopPod (respond 200 (readable MoreSamples.body_stopped))
    MoreSamples.Unmarshal_map "p1"
    = Return exitSuccess (Some MoreSamples.stopped) None
  /\ StartOnDemandPod (respond 200 (readable MoreSamples.body_resumed))
       MoreSamples.Unmarshal_map "p1"
    = Return exitSuccess (Some ∅) None
  /\ (CreatePod (respond 200 (readable MoreSamples.body_created))
        MoreSamples.Unmarshal_map (Some (unnamed "foo/bar:latest"))).2
    = Return exitSuccess (Some (MoreSamples.with_id "p9")) None
  /\ StartSpotPod (respond 200 (readable MoreSamples.body_bid_resumed))
       MoreSamples.Unmarshal_map "p1" zero
    = Return exitSuccess (Some (MoreSamples.with_id "p1")) None.
Proof.
  refine (conj _ (conj _ (conj _ _))).
  - apply (nil_error_means_payload
             (respond 200 (readable MoreSamples.body_stopped))
             MoreSamples.Unmarshal_map (unnamed "foo/bar:latest") "p1" zero).
    split; [reflexivity|].
    exists MoreSamples.stopped, MoreSamples.body_stopped,
      {[ "data" := JObject {[ "podStop" := JObject MoreSamples.stopped ]} ]},
      {[ "podStop" := JObject MoreSamples.stopped ]}.
    repeat split; try (vm_compute; reflexivity).
    eexists; repeat split; reflexivity.
  - apply (nil_error_means_payload
             (respond 200 (readable MoreSamples.body_resumed))
             MoreSamples.Unmarshal_map (unnamed "foo/bar:latest") "p1" zero).
    split; [reflexivity|].
    exists ∅, MoreSamples.body_resumed,
      {[ "data" := JObject {[ "podResume" := JObject ∅ ]} ]},
      {[ "podResume" := JObject ∅ ]}.
    repeat split; try (vm_compute; reflexivity).
    eexists; repeat split; reflexivity.
  - apply (nil_error_means_payload
             (respond 200 (readable MoreSamples.body_created))
             MoreSamples.Unmarshal_map (unnamed "foo/bar:latest") "p1" zero).
    split; [reflexivity|].
    exists (MoreSamples.with_id "p9"), MoreSamples.body_created,
      {[ "data" := JObject {[ "podFindAndDeployOnDemand"
                               := JObject (MoreSamples.with_id "p9") ]} ]},
      {[ "podFindAndDeployOnDemand" := JObject (MoreSamples.with_id "p9") ]}.
    repeat split; try (vm_compute; reflexivity).
    eexists; repeat split; reflexivity.
  - apply (nil_error_means_payload
             (respond 200 (readable MoreSamples.body_bid_resumed))
             MoreSamples.Unmarshal_map (unnamed "foo/bar:latest") "p1" zero).
    split; [reflexivity|].
    exists (MoreSamples.with_id "p1"), MoreSamples.body_bid_resumed,
      {[ "data" := JObject {[ "podBidResume" := JObject (MoreSamples.with_id "p1") ]} ]},
      {[ "podBidResume" := JObject (MoreSamples.with_id "p1") ]}.
    repeat split; try (vm_compute; reflexivity).
    eexists; repeat split; reflexivity.
Defined.

(** X7. [RemovePod] returns a nil error exactly when the transport
    answered with status 200 and a readable body that decodes to an envelope
    without GraphQL errors whose [data] is an object; [ok] then tells
    whether [podTerminate] is a key of that object. *)
Theorem RemovePod_nil_error
    (Query : Input -> Response + error)
    (Unmarshal_map : string -> gmap string json + error)
    (id : string) (x : exit) (ok : bool) :
  RemovePod Query Unmarshal_map id = Return x ok None
  <-> x = exitSuccess
      /\ exists raw data gqldata,
           answered Query Unmarshal_map (RemovePod_input id) raw data
           /\ has_errors data = false
           /\ data !! "data" = Some (JObject gqldata)
           /\ ok = bool_decide (is_Some (gqldata !! "podTerminate")).
Proof.
  split.
  - unfold RemovePod. invert_run.
    all: intros [= <- <-]; split; [reflexivity|].
    all: eexists _, _, _; repeat split;
      [ eexists; eauto using status_is_200
      | apply no_errors_intro; eauto
      | apply as_map_data; eassumption ].
  - intros (-> & raw & data & gqldata & Hanswer & Hnone & Hdata & ->).
    rewrite <- as_map_data in Hdata. unfold RemovePod.
    step_answered Hanswer.
    destruct (no_errors_cases data Hnone) as [->| ->]; by rewrite Hdata.
Qed.

(** X7 on the body [{"data": {"podTerminate": null}}]. *)
Lemma RemovePod_nil_error_witness :
  RemovePod (respond 200 (readable body_terminated)) Samples.Unmarshal_map "p1"
    = Return exitSuccess true None.
Proof.
  apply (RemovePod_nil_error (respond 200 (readable body_terminated))
           Samples.Unmarshal_map "p1" exitSuccess true).
  split; [reflexivity|].
  exists body_terminated,
    {[ "data" := JObject {[ "podTerminate" := JNull ]} ]},
    {[ "podTerminate" := JNull ]}.
  split; [eexists; repeat split; reflexivity|].
  split; [vm_compute; reflexivity|].
  split; vm_compute; reflexivity.
Defined.

(** X8. [GetPods] returns a nil error exactly when the transport answered
    with status 200 and a readable body that decodes to an envelope with no
    errors and a non-nil [data.myself.pods]; the slice returned is that
    slice as decoded: nothing is dropped from it, be it empty or holding
    nil entries. *)
Theorem GetPods_nil_error
    (Query : Input -> Response + error)
    (Unmarshal_PodOut : string -> PodOut + error)
    (x : exit) (v : option (list (option Pod.t))) :
  GetPods Query Unmarshal_PodOut = Return x v None
  <-> x = exitSuccess
      /\ exists pods raw envelope data myself,
           v = Some pods
           /\ answered Query Unmarshal_PodOut GetPods_input raw envelope
           /\ Errors envelope = []
           /\ Data envelope = Some data
           /\ Myself data = Some myself
           /\ Pods myself = Some pods.
Proof.
  split.
  - unfold GetPods. invert_run.
    intros [= <- <-]. split; [reflexivity|].
    eexists _, _, _, _, _. split; [reflexivity|].
    repeat split; eauto.
    eexists; eauto using status_is_200.
  - intros (-> & pods & raw & envelope & data & myself & -> & Hanswer
            & Herrors & Hdata & Hmyself & Hpods).
    unfold GetPods. step_answered Hanswer.
    by rewrite Herrors, Hdata, Hmyself, Hpods.
Qed.

(** X8 on an empty pods list and on a list that holds a [null]. *)
Lemma GetPods_nil_error_witness :
  GetPods (respond 200 (readable MoreSamples.body_no_pods))
    MoreSamples.Unmarshal_PodOut
    = Return exitSuccess (Some []) None
  /\ GetPods (respond 200 (readable MoreSamples.body_pods_with_null))
       MoreSamples.Unmarshal_PodOut
    = Return exitSuccess (Some [None]) None.
Proof.
  refine (conj _ _).
  - apply (GetPods_nil_error (respond 200 (readable MoreSamples.body_no_pods))
             MoreSamples.Unmarshal_PodOut).
    split; [reflexivity|].
    exists [], MoreSamples.body_no_pods,
      {| Data := Some {| Myself := Some {| Pods := Some [] |} |}; Errors := [] |},
      {| Myself := Some {| Pods := Some [] |} |}, {| Pods := Some [] |}.
    split; [reflexivity|]. split; [eexists; repeat split; reflexivity|].
    repeat split.
  - apply (GetPods_nil_error (respond 200 (readable MoreSamples.body_pods_with_null))
             MoreSamples.Unmarshal_PodOut).
    split; [reflexivity|].
    exists [None], MoreSamples.body_pods_with_null,
      {| Data := Some {| Myself := Some {| Pods := Some [None] |} |}; Errors := [] |},
      {| Myself := Some {| Pods := Some [None] |} |}, {| Pods := Some [None] |}.
    split; [reflexivity|]. split; [eexists; repeat split; reflexivity|].
    repeat split.
Defined.

(** ** Panics *)

(** X9. [GetPods] panics exactly when the transport answered with status
    200 and a readable body that decodes to an envelope whose first errors
    entry is a nil pointer (a [null] in the list): reading its [Message] is
    a nil dereference. *)
Theorem GetPods_panics_on_nil_error
    (Query : Input -> Response + error)
    (Unmarshal_PodOut : string -> PodOut + error)
    (p : panic) :
  GetPods Query Unmarshal_PodOut = Panic p
  <-> p = nilDereference
      /\ exists raw envelope rest,
           answered Query Unmarshal_PodOut GetPods_input raw envelope
           /\ Errors envelope = None :: rest.
Proof.
  split.
  - unfold GetPods. invert_run. intros [= <-]. split; [reflexivity|].
    eexists _, _, _. split; [|eassumption].
    eexists; eauto using status_is_200.
  - intros (-> & raw & envelope & rest & Hanswer & Herrors).
    unfold GetPods. step_answered Hanswer. by rewrite Herrors.
Qed.

(** X9 on the body [{"errors": [null]}]. *)
Lemma GetPods_panics_on_nil_error_witness :
  GetPods (respond 200 (readable MoreSamples.body_null_error))
    MoreSamples.Unmarshal_PodOut
    = Panic nilDereference.
Proof.
  apply (GetPods_panics_on_nil_error
           (respond 200 (readable MoreSamples.body_null_error))
           MoreSamples.Unmarshal_PodOut).
  split; [reflexivity|].
  exists MoreSamples.body_null_error, {| Data := None; Errors := [None] |}, [].
  split; [eexists; repeat split; reflexivity | reflexivity].
Defined.

(** When the unguarded assertion fails, the first entry was malformed and
    the panic is the failed conversion to [string]. *)
Lemma first_error_message_inr (first : json) (p : panic) :
  first_error_message first = inr p ->
  ~ well_formed_error first
  /\ exists dynamic, p = interfaceConversion dynamic "string".
Proof.
  unfold first_error_message. intros Hp. split.
  - intros (fields & msg & -> & Hmsg). revert Hp.
    unfold map_index. cbn [as_map from_option Datatypes.id].
    by rewrite Hmsg.
  - destruct (as_string _); [discriminate|]. injection Hp as <-. eauto.
Qed.

(** Collects, after [invert_run], what a run that panicked went through. *)
Ltac collect_panic :=
  intros [= <-];
  match goal with
  | H : first_error_message _ = inr _ |- _ =>
      destruct (first_error_message_inr _ _ H) as [? [? ->]]
  end;
  eexists _, _, _, _, _; repeat split;
  [ eexists; eauto using status_is_200
  | match goal with
    | H : as_slice (map_index ?data "errors") = Some _ |- _ =>
        unfold map_index in H;
        destruct (data !! "errors") as [[]|]; try discriminate H;
        cbn in H; injection H as ->; reflexivity
    end
  | assumption ].

(** X10. The five mutations panic only in the way C10 describes: if one of
    them panics on a non-nil input, the transport answered with status 200
    and a readable body that decodes to an envelope whose errors list is
    non-empty with a first entry that is not an object with a string
    [message], and the panic is the failed conversion to [string].  In
    particular [names[0]] in [CreatePod] is never out of range. *)
Theorem mutations_panic_only_on_malformed_error
    (Query : Input -> Response + error)
    (Unmarshal_map : string -> gmap string json + error)
    (podInput : CreatePodInput.t) (id : string) (bidPerGpu : float32)
    (p : panic) :
  let malformed_error_in_answer_to (input : Input) :=
    exists raw data first rest dynamic,
      answered Query Unmarshal_map input raw data
      /\ data !! "errors" = Some (JArray (first :: rest))
      /\ ~ well_formed_error first
      /\ p = interfaceConversion dynamic "string" in
  ((CreatePod Query Unmarshal_map (Some podInput)).2 = Panic p ->
     malformed_error_in_answer_to (CreatePod_input (CreatePod_named podInput)))
  /\ (StopPod Query Unmarshal_map id = Panic p ->
     malformed_error_in_answer_to (StopPod_input id))
  /\ (RemovePod Query Unmarshal_map id = Panic p ->
     malformed_error_in_answer_to (RemovePod_input id))
  /\ (StartOnDemandPod Query Unmarshal_map id = Panic p ->
     malformed_error_in_answer_to (StartOnDemandPod_input id))
  /\ (StartSpotPod Query Unmarshal_map id bidPerGpu = Panic p ->
     malformed_error_in_answer_to (StartSpotPod_input id bidPerGpu)).
Proof.
  intros malformed_error_in_answer_to. unfold malformed_error_in_answer_to.
  repeat split.
  - enter_CreatePod_named podInput; invert_run; collect_panic.
  - unfold StopPod. invert_run; collect_panic.
  - unfold RemovePod. invert_run; collect_panic.
  - unfold StartOnDemandPod. invert_run; collect_panic.
  - unfold StartSpotPod. invert_run; collect_panic.
Qed.

(** X10 on the body [{"errors": [null]}], where [StopPod] panics. *)
Lemma mutations_panic_only_on_malformed_error_witness :
  exists raw data first rest dynamic,
    answered (respond 200 (readable body_null_error)) Samples.Unmarshal_map
      (StopPod_input "p1") raw data
    /\ data !! "errors" = Some (JArray (first :: rest))
    /\ ~ well_formed_error first
    /\ interfaceConversion None "string" = interfaceConversion dynamic "string".
Proof.
  destruct (mutations_panic_only_on_malformed_error
              (respond 200 (readable body_null_error)) Samples.Unmarshal_map
              (unnamed "foo/bar:latest") "p1" zero
              (interfaceConversion None "string"))
    as (_ & HStop & _).
  exact (HStop eq_refl).
Defined.

(** ** What a return looks like *)

(** Settles the shape of a result once [invert_run] has laid out the run. *)
Ltac settle_shape := intros [= <- <- <-]; repeat split; (discriminate || congruence).

(** X11. [GetPods], [CreatePod], [StopPod], [StartOnDemandPod] and
    [StartSpotPod] return either a value or an error, never both and never
    neither: with a nil error the value is non-nil and the operation went
    through to its last return, with an error the value is nil. *)
Theorem value_xor_error
    (Query : Input -> Response + error)
    (Unmarshal_PodOut : string -> PodOut + error)
    (Unmarshal_map : string -> gmap string json + error)
    (podInput : CreatePodInput.t) (id : string) (bidPerGpu : float32)
    (x : exit) (pods : option (list (option Pod.t)))
    (v : option (gmap string json)) (err : option error) :
  (GetPods Query Unmarshal_PodOut = Return x pods err ->
     (err = None -> x = exitSuccess /\ pods <> None)
     /\ (err <> None -> x <> exitSuccess /\ pods = None))
  /\ ((CreatePod Query Unmarshal_map (Some podInput)).2 = Return x v err ->
     (err = None -> x = exitSuccess /\ v <> None)
     /\ (err <> None -> x <> exitSuccess /\ v = None))
  /\ (StopPod Query Unmarshal_map id = Return x v err ->
     (err = None -> x = exitSuccess /\ v <> None)
     /\ (err <> None -> x <> exitSuccess /\ v = None))
  /\ (StartOnDemandPod Query Unmarshal_map id = Return x v err ->
     (err = None -> x = exitSuccess /\ v <> None)
     /\ (err <> None -> x <> exitSuccess /\ v = None))
  /\ (StartSpotPod Query Unmarshal_map id bidPerGpu = Return x v err ->
     (err = None -> x = exitSuccess /\ v <> None)
     /\ (err <> None -> x <> exitSuccess /\ v = None)).
Proof.
  split; [|split; [|split; [|split]]].
  - unfold GetPods. invert_run; settle_shape.
  - enter_CreatePod podInput; invert_run; settle_shape.
  - unfold StopPod. invert_run; settle_shape.
  - unfold StartOnDemandPod. invert_run; settle_shape.
  - unfold StartSpotPod. invert_run; settle_shape.
Qed.

(** X11 read on a refused connection: an error, and no value. *)
Lemma value_xor_error_witness :
  exitQueryErr <> exitSuccess /\ (None : option (gmap string json)) = None.
Proof.
  destruct (value_xor_error
              MoreSamples.unreachable MoreSamples.Unmarshal_PodOut
              MoreSamples.Unmarshal_map (unnamed "foo/bar:latest") "p1" zero
              exitQueryErr None None (Some MoreSamples.refused))
    as (_ & _ & HStop & _).
  destruct (HStop eq_refl) as [_ Herr].
  apply Herr. discriminate.
Defined.

(** X12. [RemovePod] can hand back [ok = true] together with an error: it
    does so exactly on the GraphQL-errors return.  On every other failing
    return [ok] is [false], and a nil error means the last return was
    reached. *)
Theorem RemovePod_ok_and_error
    (Query : Input -> Response + error)
    (Unmarshal_map : string -> gmap string json + error)
    (id : string) (x : exit) (ok : bool) (err : option error) :
  RemovePod Query Unmarshal_map id = Return x ok err ->
  (err = None <-> x = exitSuccess)
  /\ (ok = true /\ err <> None <-> x = exitGraphQLErrors).
Proof.
  unfold RemovePod. invert_run; intros [= <- <- <-]; repeat split;
    try discriminate; try congruence; intros [? ?]; try discriminate; congruence.
Qed.

(** X12 on an envelope with errors: [ok = true] and an error. *)
Lemma RemovePod_ok_and_error_witness :
  (true = true /\ Some (errorString "A") <> None) <-> exitGraphQLErrors = exitGraphQLErrors.
Proof.
  exact (proj2 (RemovePod_ok_and_error
                  (respond 200 (readable body_two_errors)) Samples.Unmarshal_map
                  "p1" exitGraphQLErrors true (Some (errorString "A")) eq_refl)).
Defined.

(** ** [CreatePod] once more *)

(** X13. Calling [CreatePod] again on the struct a first call left behind
    changes nothing more: the struct stays as it is and is sent as it is,
    whatever transports and decoders the two calls use. *)
Theorem CreatePod_again_keeps_struct
    (Query Query' : Input -> Response + error)
    (Unmarshal_map Unmarshal_map' : string -> gmap string json + error)
    (p after : CreatePodInput.t) :
  (CreatePod Query Unmarshal_map (Some p)).1 = Some after ->
  (CreatePod Query' Unmarshal_map' (Some after)).1 = Some after
  /\ CreatePod_sends Unmarshal_map' after after.
Proof.
  rewrite CreatePod_struct_after. intros [= <-].
  assert (Hfixed : forall Q U,
            (CreatePod Q U (Some (CreatePod_named p))).1 = Some (CreatePod_named p)).
  { intros Q U. rewrite CreatePod_struct_after. f_equal. unfold CreatePod_named.
    destruct (String.eqb (CreatePodInput.Name p) "") eqn:Hname; [|by rewrite Hname].
    cbn [CreatePodInput.Name CreatePodInput.ImageName CreatePodInput.set_Name].
    by destruct (String.eqb (up_to_colon (CreatePodInput.ImageName p)) ""). }
  fold (CreatePod_named p). split; [apply Hfixed|].
  exists (CreatePod_input (CreatePod_named p)).
  split; [apply lookup_singleton_eq|].
  apply CreatePod_asks_named. intros Q. apply Hfixed.
Qed.

(** X13 on a request for ["foo/bar:latest"] sent twice. *)
Lemma CreatePod_again_keeps_struct_witness :
  (CreatePod echo_name Samples.Unmarshal_map
     (Some (named "foo/bar" "foo/bar:latest"))).1
    = Some (named "foo/bar" "foo/bar:latest").
Proof.
  exact (proj1 (CreatePod_again_keeps_struct
                  MoreSamples.unreachable echo_name
                  MoreSamples.Unmarshal_map Samples.Unmarshal_map
                  (unnamed "foo/bar:latest") (named "foo/bar" "foo/bar:latest")
                  eq_refl)).
Defined.

Lemma up_to_colon_empty (image : string) :
  up_to_colon image = ""
  <-> image = "" \/ exists tail, image = String ":" tail.
Proof.
  destruct image as [|c rest]; [by split; [left|]|].
  cbn [up_to_colon]. destruct (Ascii.eqb_spec c ":") as [->|Hne].
  - split; [right; by exists rest | done].
  - split; [discriminate | intros [[=]|(tail & [= Hc _])]; contradiction].
Qed.

(** X14. The derived name is not checked: when [Name] is empty and the
    image name is empty or starts with a colon, and only then, the derived
    name is empty too, and [CreatePod] sends the request all the same, with
    an empty [Name]. *)
Theorem CreatePod_sends_empty_name
    (Unmarshal_map : string -> gmap string json + error)
    (p : CreatePodInput.t) :
  CreatePodInput.Name p = "" ->
  (exists sent,
     CreatePod_sends Unmarshal_map p sent /\ CreatePodInput.Name sent = "")
  <-> CreatePodInput.ImageName p = ""
      \/ exists tail, CreatePodInput.ImageName p = String ":" tail.
Proof.
  intros Hname. rewrite <- up_to_colon_empty.
  assert (Hsends : CreatePod_sends Unmarshal_map p (CreatePod_named p)).
  { exists (CreatePod_input (CreatePod_named p)).
    split; [apply lookup_singleton_eq|].
    apply CreatePod_asks_named. intros Q. apply CreatePod_struct_after. }
  assert (Hderived : CreatePodInput.Name (CreatePod_named p)
                     = up_to_colon (CreatePodInput.ImageName p)).
  { unfold CreatePod_named. by rewrite Hname. }
  split.
  - intros (sent & (input & Hvar & Hasks) & Hempty).
    destruct Hsends as (input' & Hvar' & Hasks').
    (* both requests decide the outcome, so a transport that tells them
       apart shows they bind the same name *)
    pose (Q := fun i : Input =>
                 match Variables i !! "input" with
                 | Some (VCreatePodInput q) =>
                     inr (foreignError "name" (CreatePodInput.Name q))
                 | _ => inr (foreignError "none" "")
                 end : Response + error).
    destruct (Hasks Q) as [_ Hfail]. destruct (Hasks' Q) as [_ Hfail'].
    specialize (Hfail (foreignError "name" (CreatePodInput.Name sent))).
    specialize (Hfail' (foreignError "name" (CreatePodInput.Name (CreatePod_named p)))).
    unfold Q in Hfail, Hfail'. rewrite Hvar in Hfail. rewrite Hvar' in Hfail'.
    rewrite (Hfail eq_refl) in Hfail'. specialize (Hfail' eq_refl).
    injection Hfail' as Hsame. rewrite <- Hderived, <- Hsame. exact Hempty.
  - intros Hempty. exists (CreatePod_named p). split; [exact Hsends|].
    by rewrite Hderived.
Qed.

(** X14 on the image name [":latest"]. *)
Lemma CreatePod_sends_empty_name_witness :
  exists sent,
    CreatePod_sends Samples.Unmarshal_map (unnamed ":latest") sent
    /\ CreatePodInput.Name sent = "".
Proof.
  apply (CreatePod_sends_empty_name Samples.Unmarshal_map (unnamed ":latest") eq_refl).
  right. by exists "latest".
Defined.

(** ** What the status error keeps *)

(** [%d] prints different numbers differently. *)
Lemma fmt_d_inj (n m : Z) : fmt_d n = fmt_d m -> n = m.
Proof.
  unfold fmt_d. intros H. apply DecimalZ.to_int_inj.
  assert (Hsome : Some (Z.to_int n) = Some (Z.to_int m))
    by (rewrite <- !NilEmpty.isi; by rewrite H).
  by injection Hsome.
Qed.

(** [%d] prints no colon: the text up to the first colon of a number
    followed by a colon is the number. *)
Lemma up_to_colon_uint (d : Decimal.uint) (behind : string) :
  up_to_colon (NilEmpty.string_of_uint d +:+ String ":" behind)
    = NilEmpty.string_of_uint d.
Proof.
  induction d as [|d IH|d IH|d IH|d IH|d IH|d IH|d IH|d IH|d IH|d IH];
    cbn [NilEmpty.string_of_uint]; simpl; by rewrite ?IH.
Qed.

Lemma up_to_colon_fmt_d (n : Z) (behind : string) :
  up_to_colon (fmt_d n +:+ String ":" behind) = fmt_d n.
Proof.
  unfold fmt_d, NilEmpty.string_of_int.
  destruct (Z.to_int n) as [d|d]; [apply up_to_colon_uint|].
  simpl. by rewrite up_to_colon_uint.
Qed.

Lemma append_inv_head (s t t' : string) : s +:+ t = s +:+ t' -> t = t'.
Proof. induction s as [|c s IH]; cbn; [done|]. intros [= H]. by apply IH. Qed.

(** X15. The status error keeps the status code, and in [CreatePod] the
    body as well: two answers with codes other than 200 that lead an
    operation to the same result have the same code; for [CreatePod], with
    readable bodies, they have the same body too. *)
Theorem status_error_is_lossless
    (Query Query' : Input -> Response + error)
    (Unmarshal_PodOut : string -> PodOut + error)
    (Unmarshal_map : string -> gmap string json + error)
    (code code' : Z) (raw raw' : string)
    (podInput : CreatePodInput.t) (id : string) (bidPerGpu : float32) :
  code <> 200%Z -> code' <> 200%Z ->
  (forall input, Query input = inl {| StatusCode := code; Body := readable raw |}) ->
  (forall input, Query' input = inl {| StatusCode := code'; Body := readable raw' |}) ->
  (GetPods Query Unmarshal_PodOut = GetPods Query' Unmarshal_PodOut -> code = code')
  /\ (StopPod Query Unmarshal_map id = StopPod Query' Unmarshal_map id ->
      code = code')
  /\ (RemovePod Query Unmarshal_map id = RemovePod Query' Unmarshal_map id ->
      code = code')
  /\ (StartOnDemandPod Query Unmarshal_map id
        = StartOnDemandPod Query' Unmarshal_map id -> code = code')
  /\ (StartSpotPod Query Unmarshal_map id bidPerGpu
        = StartSpotPod Query' Unmarshal_map id bidPerGpu -> code = code')
  /\ ((CreatePod Query Unmarshal_map (Some podInput)).2
        = (CreatePod Query' Unmarshal_map (Some podInput)).2 ->
      code = code' /\ raw = raw').
Proof.
  intros Hcode Hcode' HQ HQ'.
  repeat match goal with |- _ /\ _ => split end.
  - unfold GetPods. step_response. intros [= H]. by apply fmt_d_inj.
  - unfold StopPod. step_response. intros [= H]. by apply fmt_d_inj.
  - unfold RemovePod. step_response. intros [= H]. by apply fmt_d_inj.
  - unfold StartOnDemandPod. step_response. intros [= H]. by apply fmt_d_inj.
  - unfold StartSpotPod. step_response. intros [= H]. by apply fmt_d_inj.
  - enter_CreatePod podInput; step_response; intros [= H].
    all: assert (Htext : fmt_d code +:+ String ":" (" " +:+ raw)
                         = fmt_d code' +:+ String ":" (" " +:+ raw')) by exact H.
    all: pose proof (f_equal up_to_colon Htext) as Hnumber.
    all: rewrite !up_to_colon_fmt_d in Hnumber.
    all: apply fmt_d_inj in Hnumber; subst code'.
    all: apply append_inv_head in Htext; by injection Htext.
Qed.

(** X15 on the answers 500 and 503, and on two bodies under 500. *)
Lemma status_error_is_lossless_witness :
  StopPod (respond 500 (readable "a")) Samples.Unmarshal_map "p1"
    <> StopPod (respond 503 (readable "a")) Samples.Unmarshal_map "p1"
  /\ (CreatePod (respond 500 (readable "a")) Samples.Unmarshal_map
        (Some (unnamed "foo/bar:latest"))).2
     <> (CreatePod (respond 500 (readable "b")) Samples.Unmarshal_map
           (Some (unnamed "foo/bar:latest"))).2.
Proof.
  destruct (status_error_is_lossless
              (respond 500 (readable "a")) (respond 503 (readable "a"))
              Samples.Unmarshal_PodOut Samples.Unmarshal_map 500 503 "a" "a"
              (unnamed "foo/bar:latest") "p1" zero)
    as (_ & HStop & _); [lia | lia | reflexivity | reflexivity |].
  destruct (status_error_is_lossless
              (respond 500 (readable "a")) (respond 500 (readable "b"))
              Samples.Unmarshal_PodOut Samples.Unmarshal_map 500 500 "a" "b"
              (unnamed "foo/bar:latest") "p1" zero)
    as (_ & _ & _ & _ & _ & HCreate); [lia | lia | reflexivity | reflexivity |].
  split.
  - intros Hsame. apply HStop in Hsame. discriminate Hsame.
  - intros Hsame. apply HCreate in Hsame. destruct Hsame as [_ Hraw].
    discriminate Hraw.
Defined.

(** ** An errors member that is not a non-empty list *)

(** X16. A value under [errors] that is not a list, or is an empty list,
    is passed over in silence by the mutations: with the payload there,
    they succeed as if [errors] were missing. *)
Theorem errors_not_a_list_is_ignored
    (Query : Input -> Response + error)
    (Unmarshal_map : string -> gmap string json + error)
    (raw : string) (data gqldata pod : gmap string json) (errors : json)
    (podInput : CreatePodInput.t) (id : string) (bidPerGpu : float32) :
  data !! "errors" = Some errors ->
  (forall first rest, errors <> JArray (first :: rest)) ->
  data !! "data" = Some (JObject gqldata) ->
  (answered Query Unmarshal_map (CreatePod_input (CreatePod_named podInput)) raw data ->
     gqldata !! "podFindAndDeployOnDemand" = Some (JObject pod) ->
     (CreatePod Query Unmarshal_map (Some podInput)).2
       = Return exitSuccess (Some pod) None)
  /\ (answered Query Unmarshal_map (StopPod_input id) raw data ->
     gqldata !! "podStop" = Some (JObject pod) ->
     StopPod Query Unmarshal_map id = Return exitSuccess (Some pod) None)
  /\ (answered Query Unmarshal_map (RemovePod_input id) raw data ->
     RemovePod Query Unmarshal_map id
       = Return exitSuccess (bool_decide (is_Some (gqldata !! "podTerminate"))) None)
  /\ (answered Query Unmarshal_map (StartOnDemandPod_input id) raw data ->
     gqldata !! "podResume" = Some (JObject pod) ->
     StartOnDemandPod Query Unmarshal_map id = Return exitSuccess (Some pod) None)
  /\ (answered Query Unmarshal_map (StartSpotPod_input id bidPerGpu) raw data ->
     gqldata !! "podBidResume" = Some (JObject pod) ->
     StartSpotPod Query Unmarshal_map id bidPerGpu
       = Return exitSuccess (Some pod) None).
Proof.
  intros Herrors Hshape Hdata.
  assert (Hnone : has_errors data = false).
  { destruct (has_errors data) eqn:Hsome; [|done].
    apply has_errors_true in Hsome as (first & rest & Hlist).
    rewrite Herrors in Hlist. injection Hlist as ->. by destruct (Hshape first rest). }
  rewrite <- as_map_data in Hdata.
  destruct (no_errors_cases data Hnone) as [Hslice|Hslice].
  all: repeat match goal with |- _ /\ _ => split end.
  all: intros Hanswer; try (intros Hkey; rewrite <- as_map_payload in Hkey).
  all: try (revert Hanswer; enter_CreatePod_named podInput; intros Hanswer).
  all: unfold StopPod, RemovePod, StartOnDemandPod, StartSpotPod.
  all: step_answered Hanswer; rewrite Hslice, Hdata; try rewrite Hkey; reflexivity.
Qed.

(** X16 on the object [{"errors": "boom", "data": {...}}]. *)
Lemma errors_not_a_list_is_ignored_witness :
  StopPod (respond 200 (readable MoreSamples.body_errors_not_a_list))
    MoreSamples.Unmarshal_map "p1"
    = Return exitSuccess (Some (MoreSamples.with_id "p1")) None
  /\ RemovePod (respond 200 (readable MoreSamples.body_errors_not_a_list))
       MoreSamples.Unmarshal_map "p1"
    = Return exitSuccess true None.
Proof.
  destruct (errors_not_a_list_is_ignored
              (respond 200 (readable MoreSamples.body_errors_not_a_list))
              MoreSamples.Unmarshal_map MoreSamples.body_errors_not_a_list
              (<[ "errors" := JString "boom" ]>
                 {[ "data" := MoreSamples.stop_and_terminate ]})
              (<[ "podStop" := JObject (MoreSamples.with_id "p1") ]>
                 {[ "podTerminate" := JNull ]})
              (MoreSamples.with_id "p1") (JString "boom")
              (unnamed "foo/bar:latest") "p1" zero)
    as (_ & HStop & HRemove & _);
    [vm_compute; reflexivity | discriminate | vm_compute; reflexivity |].
  assert (Hanswer : forall input,
            answered (respond 200 (readable MoreSamples.body_errors_not_a_list))
              MoreSamples.Unmarshal_map input MoreSamples.body_errors_not_a_list
              (<[ "errors" := JString "boom" ]>
                 {[ "data" := MoreSamples.stop_and_terminate ]})).
  { intros input. eexists. repeat split; reflexivity. }
  refine (conj (HStop (Hanswer _) _) _); [vm_compute; reflexivity|].
  pose proof (HRemove (Hanswer _)) as Hok. vm_compute in Hok. exact Hok.
Defined.
